(** * The Uplay runner of Lutris ([lutris/runners/wineuplay.py])

    A shallow embedding of the decision logic of the runner: the layered
    search for the launcher executable, the registry lookups, the install
    continuation, the graceful-then-forced shutdown and the command
    builders.  Python code that touches the outside world is written in a
    small state-and-exception monad over a [World] that records every
    external call in a trace. *)

From Stdlib Require Import Ascii String List Arith Lia.
From stdpp Require Import base option list gmap strings.

Local Open Scope string_scope.
Local Open Scope list_scope.

(** ** Python strings *)

Module Py.

(** The double quote character, [chr(34)]. *)
Definition dquote : ascii := Ascii.ascii_of_nat 34.
(** The backslash character, [chr(92)]. *)
Definition backslash : ascii := Ascii.ascii_of_nat 92.
(** The path separator of [posixpath]. *)
Definition slash : ascii := Ascii.ascii_of_nat 47.

(** Truth value of a [str]: only the empty string is falsy. *)
Definition truthy (s : string) : bool :=
  match s with
  | EmptyString => false
  | String _ _ => true
  end.

(** Truth value of [None] or a [str]. *)
Definition truthy_opt (o : option string) : bool :=
  match o with
  | None => false
  | Some s => truthy s
  end.

(** [s.split(sep)] for a separator of one character. *)
Fixpoint split (sep : ascii) (s : string) : list string :=
  match s with
  | EmptyString => [EmptyString]
  | String c s' =>
      if Ascii.eqb c sep then EmptyString :: split sep s'
      else match split sep s' with
           | [] => [String c EmptyString]
           | p :: ps => String c p :: ps
           end
  end.

(** [c in s] for a character [c]. *)
Fixpoint contains (c : ascii) (s : string) : bool :=
  match s with
  | EmptyString => false
  | String c' s' => Ascii.eqb c' c || contains c s'
  end.

Definition mem (c : ascii) (chars : list ascii) : bool :=
  existsb (Ascii.eqb c) chars.

(** [s.lstrip(chars)] *)
Fixpoint lstrip (chars : list ascii) (s : string) : string :=
  match s with
  | EmptyString => EmptyString
  | String c s' => if mem c chars then lstrip chars s' else s
  end.

(** [s.rstrip(chars)] *)
Fixpoint rstrip (chars : list ascii) (s : string) : string :=
  match s with
  | EmptyString => EmptyString
  | String c s' =>
      match rstrip chars s' with
      | EmptyString => if mem c chars then EmptyString else String c EmptyString
      | r => String c r
      end
  end.

(** [s.strip(chars)] *)
Definition strip (chars : list ascii) (s : string) : string :=
  rstrip chars (lstrip chars s).

Definition startswith (c : ascii) (s : string) : bool :=
  match s with
  | String c' _ => Ascii.eqb c' c
  | EmptyString => false
  end.

Fixpoint endswith (c : ascii) (s : string) : bool :=
  match s with
  | EmptyString => false
  | String c' EmptyString => Ascii.eqb c' c
  | String _ s' => endswith c s'
  end.

(** [posixpath.join(a, *p)] *)
Fixpoint os_path_join (a : string) (p : list string) : string :=
  match p with
  | [] => a
  | b :: p' =>
      if startswith slash b then os_path_join b p'
      else if negb (truthy a) || endswith slash a then os_path_join (a +:+ b) p'
      else os_path_join (a +:+ String slash b) p'
  end.

(** [p[:p.rfind('/') + 1]]: the text up to and with the last separator. *)
Fixpoint head_upto_sep (p : string) : string :=
  match p with
  | EmptyString => EmptyString
  | String c p' =>
      match head_upto_sep p' with
      | EmptyString => if Ascii.eqb c slash then String c EmptyString else EmptyString
      | h => String c h
      end
  end.

(** [posixpath.dirname(p)] *)
Definition os_path_dirname (p : string) : string :=
  let head := head_upto_sep p in
  match rstrip [slash] head with
  | EmptyString => head          (* empty, or nothing but separators *)
  | stripped => stripped
  end.

(** [fmt % arg] for a format that ends in its only [%s]. *)
Definition percent_s (before : string) (arg : string) : string :=
  before +:+ arg.

End Py.

Example split_two_quotes :
  Py.split Py.dquote (String Py.dquote ("C:\up.exe" +:+ String Py.dquote " %1"))
  = [""; "C:\up.exe"; " %1"].
Proof. reflexivity. Qed.

Example split_no_quote : Py.split Py.dquote "C:\up.exe %1" = ["C:\up.exe %1"].
Proof. reflexivity. Qed.

Example strip_backslashes :
  Py.strip [Py.backslash] "\\C:\up\" = "C:\up".
Proof. reflexivity. Qed.

Example join_plain : Py.os_path_join "/p" ["user.reg"] = "/p/user.reg".
Proof. reflexivity. Qed.

Example join_trailing : Py.os_path_join "/p/" ["user.reg"] = "/p/user.reg".
Proof. reflexivity. Qed.

Example join_absolute : Py.os_path_join "/p" ["/q"; "r"] = "/q/r".
Proof. reflexivity. Qed.

Example dirname_plain : Py.os_path_dirname "/a/b/prefix" = "/a/b".
Proof. reflexivity. Qed.

Example dirname_root : Py.os_path_dirname "/prefix" = "/".
Proof. reflexivity. Qed.

(** ** Exceptions, events and the world *)

(** The exceptions the module raises itself or runs into. *)
Inductive exn : Type :=
| ValueError (msg : string)
| RuntimeError (msg : string)
| IndexError                      (* [parts[1]] out of range *)
| KeyError (key : string)         (* [runner_config[key]] *)
| AttributeError (attr : string)  (* [None.keys()] *)
| FileNotFoundError (filename : string)   (* [os.mkdir('')] *)
| FileExistsError (filename : string)     (* [os.mkdir] of what exists *)
| ExternalError (who : string).   (* raised inside a collaborator *)

Inductive Result (A : Type) : Type :=
| Ok (a : A)
| Raise (e : exn).
Arguments Ok {A} a.
Arguments Raise {A} e.

Inductive LogLevel : Type := Debug | Info | Warning | Error.

(** Every call that leaves the module, with its arguments (and its answer,
    for the calls that only read). *)
Inductive Event : Type :=
| EvPathExists (path : string) (found : bool)            (* system.path_exists *)
| EvOpenRegistry (reg_filename : string)                 (* WineRegistry(...) *)
| EvQuery (reg_filename key : string) (name : option string)  (* registry.query *)
| EvFixPathCase (path : string)                          (* system.fix_path_case *)
| EvGetPid (pattern : string) (pid : option string)      (* system.get_pid *)
| EvKillPid (pid : option string)                        (* system.kill_pid *)
| EvSleep (seconds : nat)                                (* time.sleep *)
| EvShutdown                                             (* self.shutdown() *)
| EvLog (level : LogLevel) (fmt : string) (args : list string)
| EvMakedirs (path : string)                             (* os.makedirs *)
| EvCreatePrefix (prefix_dir arch wine_path : string)    (* create_prefix *)
| EvWineexec (executable args prefix wine_path : string) (* wineexec *)
| EvWinetricks (app prefix wine_path : string)           (* winetricks *)
| EvDownloadExtract (url dest : string)                  (* self.download_and_extract *)
| EvDownload (url dest : string)                         (* downloader(...) *)
| EvExecute (argv : list string) (env : list (string * string))   (* system.execute *)
| EvMonitoredStart (argv : list string) (env : list (string * string)).
                                                         (* MonitoredCommand(...).start() *)

(** The contents of one registry file: key path, then value name. *)
Abbreviation Hive := (gmap string (gmap string string)).

Record World : Type := mkWorld {
  fs : gset string;                 (* the paths that exist *)
  hives : gmap string Hive;         (* the registry files, by path *)
  pids : nat -> option string;      (* the answer of the n-th process lookup *)
  lookups : nat;                    (* process lookups made so far *)
  outcome : Event -> option exn;    (* which collaborator calls raise *)
  trace : list Event                (* the calls made so far, oldest first *)
}.

Definition record (ev : Event) (w : World) : World :=
  mkWorld (fs w) (hives w) (pids w) (lookups w) (outcome w) (trace w ++ [ev]).

Definition records (evs : list Event) (w : World) : World :=
  mkWorld (fs w) (hives w) (pids w) (lookups w) (outcome w) (trace w ++ evs).

Definition touch (path : string) (w : World) : World :=
  mkWorld ({[path]} ∪ fs w) (hives w) (pids w) (lookups w) (outcome w) (trace w).

Definition on_disk (disk : gset string) (w : World) : World :=
  mkWorld disk (hives w) (pids w) (lookups w) (outcome w) (trace w).

Definition looked_up (w : World) : World :=
  mkWorld (fs w) (hives w) (pids w) (S (lookups w)) (outcome w) (trace w).

(** ** Directories *)

Module PyOs.

(** [p[p.rfind('/') + 1:]]: the text after the last separator. *)
Fixpoint basename (p : string) : string :=
  match p with
  | EmptyString => EmptyString
  | String c p' =>
      if Py.contains Py.slash p' then basename p'
      else if Ascii.eqb c Py.slash then p' else p
  end.

(** [posixpath.split(p)] *)
Definition split (p : string) : string * string :=
  (Py.os_path_dirname p, basename p).

(** [os.mkdir(name)] as [os.makedirs] calls it, with the directory above
    in place: the exception, if any, and the disk afterwards. *)
Definition mkdir (disk : gset string) (name : string) : option exn * gset string :=
  if negb (Py.truthy name) then (Some (FileNotFoundError name), disk)
  else if bool_decide (name ∈ disk) then (Some (FileExistsError name), disk)
  else (None, {[name]} ∪ disk).

(** The body of [os.makedirs(name)], which calls itself on [head]; the
    text gets shorter with each call, and [fuel] is its length. *)
Fixpoint makedirs_run (fuel : nat) (disk : gset string) (name : string)
  : option exn * gset string :=
  match fuel with
  | 0 => mkdir disk name
  | S fuel' =>
      let (head, tail) := split name in
      let (head, tail) := if negb (Py.truthy tail) then split head else (head, tail) in
      if Py.truthy head && Py.truthy tail && negb (bool_decide (head ∈ disk)) then
        match makedirs_run fuel' disk head with
        | (Some (FileExistsError _), disk') | (None, disk') =>
            if String.eqb tail "." then (None, disk') else mkdir disk' name
        | (Some e, disk') => (Some e, disk')
        end
      else mkdir disk name
  end.

(** [os.makedirs(name)] on a disk. *)
Definition makedirs (disk : gset string) (name : string) : option exn * gset string :=
  makedirs_run (String.length name) disk name.

End PyOs.

(** ** The monad: state passing over [World], with exceptions *)

Definition M (A : Type) : Type := World -> Result A * World.

Definition ret {A} (a : A) : M A := fun w => (Ok a, w).

Definition raise {A} (e : exn) : M A := fun w => (Raise e, w).

Definition bind {A B} (m : M A) (k : A -> M B) : M B :=
  fun w =>
    match m w with
    | (Ok a, w') => k a w'
    | (Raise e, w') => (Raise e, w')
    end.

Notation "'do' x <- m ; k" := (bind m (fun x => k))
  (at level 10, x name, m at level 100, k at level 200).
Notation "'do_' m ; k" := (bind m (fun _ => k))
  (at level 10, m at level 100, k at level 200).

(** A call that cannot raise: it is only recorded. *)
Definition emit (ev : Event) : M unit := fun w => (Ok tt, record ev w).

(** A call into a collaborator that may raise: it is recorded, then it
    raises or completes as the world decides. *)
Definition act (ev : Event) : M unit :=
  fun w =>
    match outcome w ev with
    | Some e => (Raise e, record ev w)
    | None => (Ok tt, record ev w)
    end.

(** A Python [for] loop whose body may [return]: the body answers [Some v]
    for [return v] and [None] when it runs to its end (or [continue]s). *)
Fixpoint for_each {A R} (xs : list A) (body : A -> M (option R)) : M (option R) :=
  match xs with
  | [] => ret None
  | x :: xs' =>
      do r <- body x;
      match r with
      | Some v => ret (Some v)
      | None => for_each xs' body
      end
  end.

(** ** The collaborators *)

(** Modelled from the spec: [system.path_exists] of [lutris/util/system.py]
    is missing; section 4.2 has it test whether the path exists on disk. *)
Definition path_exists (path : string) : M bool :=
  fun w =>
    let found := bool_decide (path ∈ fs w) in
    (Ok found, record (EvPathExists path found) w).

(** Modelled from the spec: [system.get_pid] of [lutris/util/system.py] is
    missing; section 4.4 has it sample whether the process is there.  It
    answers the pid of a matching process, or [None]. *)
Definition get_pid (pattern : string) : M (option string) :=
  fun w =>
    let pid := pids w (lookups w) in
    (Ok pid, record (EvGetPid pattern pid) (looked_up w)).

(** Modelled from the spec: [system.kill_pid] of [lutris/util/system.py] is
    missing; sections 4.4 and 7 have the forced kill a best-effort signal
    whose outcome the caller learns by polling. *)
Definition kill_pid (pid : option string) : M unit := emit (EvKillPid pid).

(** [time.sleep(seconds)] *)
Definition time_sleep (seconds : nat) : M unit := emit (EvSleep seconds).

(** [logger.<level>(fmt, *args)] *)
Definition logger (level : LogLevel) (fmt : string) (args : list string) : M unit :=
  emit (EvLog level fmt args).

(** [os.makedirs(path)]: the call is recorded; it raises what the world
    decides (a directory that may not be written, say), and otherwise
    does on the disk what [PyOs.makedirs] says. *)
Definition os_makedirs (path : string) : M unit :=
  do_ act (EvMakedirs path);
  fun w =>
    match PyOs.makedirs (fs w) path with
    | (Some e, disk) => (Raise e, on_disk disk w)
    | (None, disk) => (Ok tt, on_disk disk w)
    end.

(** Modelled from the spec: [create_prefix] of
    [lutris/runners/commands/wine.py] is missing; section 4.1 has it
    initialise a fresh environment at the path, and fail by raising. *)
Definition create_prefix (prefix_dir arch wine_path : string) : M unit :=
  do_ act (EvCreatePrefix prefix_dir arch wine_path);
  fun w => (Ok tt, touch prefix_dir w).

(** Modelled from the spec: the registry-hive class [WineRegistry] of
    [lutris/util/wine/registry.py] is missing.  Section 3 and section 6
    of the specification give its contract: a handle over a file that
    answers [query(keyPath, valueName)] with an optional value and
    [query(keyPath)] with the mapping below that key, absence being told
    apart from an empty result; an absent file is "no data" (section 7). *)
Record WineRegistry : Type := mkRegistry {
  reg_filename : string;
  keys : Hive
}.

(** [WineRegistry(reg_filename)] *)
Definition WineRegistry_open (reg_filename : string) : M WineRegistry :=
  fun w =>
    (Ok (mkRegistry reg_filename (default ∅ (hives w !! reg_filename))),
     record (EvOpenRegistry reg_filename) w).

(** [registry.query(path, subkey)] *)
Definition query (registry : WineRegistry) (path name : string) : M (option string) :=
  do_ emit (EvQuery (reg_filename registry) path (Some name));
  ret (keys registry !! path ≫= (fun key => key !! name)).

(** [registry.query(path)] *)
Definition query_subkeys (registry : WineRegistry) (path : string)
  : M (option (gmap string string)) :=
  do_ emit (EvQuery (reg_filename registry) path None);
  ret (keys registry !! path).

(** ** The runner *)

(** Functions of the Python library and of Lutris that only compute, and
    the constants the module imports. *)
Record Host : Type := mkHost {
  expanduser : string -> string;               (* os.path.expanduser *)
  abspath : string -> string;                  (* os.path.abspath *)
  split_arguments : string -> list string;     (* lutris.util.strings *)
  case_corrected : gset string -> string -> string;
                                   (* what system.fix_path_case answers on a disk *)
  get_unix_path : WineRegistry -> string -> string;  (* registry.get_unix_path *)
  TMP_PATH : string;                           (* settings.TMP_PATH *)
  WINE_DEFAULT_ARCH : string                   (* lutris.util.wine.wine *)
}.

(** [self.game_config], read with [.get] only: the four [game_options]. *)
Record GameConfig : Type := mkGameConfig {
  cfg_game_id : option string;
  cfg_prefix : option string;
  cfg_arch : option string;
  cfg_nolaunch : option bool
}.

(** The instance: its two configuration levels and what it inherits from
    the Wine runner. *)
Record wineuplay : Type := mkRunner {
  runner_config : gmap string string;
  game_config : GameConfig;
  get_executable : string;                       (* self.get_executable() *)
  wine_arch : string;                            (* self.wine_arch() *)
  get_env : option bool -> list (string * string);   (* self.get_env(os_env=...) *)
  wine_is_installed : bool                       (* super().is_installed(...) *)
}.

(** Modelled from the spec: [system.fix_path_case] of
    [lutris/util/system.py] is missing; sections 3 and 4.2 have it
    case-correct the path against the real file system.  The call is
    recorded and its answer is read off the disk. *)
Definition fix_path_case (host : Host) (path : string) : M string :=
  fun w => (Ok (case_corrected host (fs w) path), record (EvFixPathCase path) w).

Definition DX2010_INSTALLER_URL : string :=
  "https://lutris.net/files/tools/directx-2010.tar.gz".

(** The literal is continued with a backslash inside the quotes, so the
    indentation of the second line is part of the text. *)
Definition UPLAY_INSTALLER_URL : string :=
  "https://ubistatic3-a.akamaihd.net/orbit/                       launcher_installer/UplayInstaller.exe".

Definition UPLAY_PATTERN : string := "Uplay.exe$".

(** The two well-known places of the launcher below a prefix.  The first
    literal is continued with a backslash inside the quotes and carries the
    sixteen blanks of the next line. *)
Definition default_paths : list string :=
  [ "drive_c/Program Files (x86)/Ubisoft/Ubisoft Game Launcher/                upc.exe";
    "drive_c/Program Files/Ubisoft/Ubisoft Game Launcher/upc.exe" ].

Definition OPEN_COMMAND_KEY : string := "Software/Classes/uplay/Shell/Open/Command".
Definition GAME_STARTER_KEY : string := "Software/Ubisoft/Uplay/GameStarter".
Definition INSTALLS_KEY_WOW : string := "Software/Wow6432/Ubisoft/Launcher/Installs/".
Definition INSTALLS_KEY : string := "Software/Ubisoft/Launcher/Installs/".

(** [is_running()] *)
Definition is_running : M bool :=
  do pid <- get_pid UPLAY_PATTERN;
  ret (Py.truthy_opt pid).

(** [kill()] *)
Definition kill : M unit :=
  do pid <- get_pid UPLAY_PATTERN;
  kill_pid pid.

(** [x or ""] for [x] a [str] or [None]. *)
Definition or_empty (x : option string) : string := default "" x.

Section Runner.

Variable host : Host.

Definition default_arch : string := WINE_DEFAULT_ARCH host.

(** [wineuplay.game_id] *)
Definition game_id (self : wineuplay) : string :=
  or_empty (cfg_game_id (game_config self)).

(** [wineuplay.get_open_command(registry)] *)
Definition get_open_command (registry : WineRegistry) : M (option string) :=
  do value <- query registry OPEN_COMMAND_KEY "default";
  if negb (Py.truthy_opt value) then ret None
  else
    let parts := Py.split Py.dquote (or_empty value) in
    match nth_error parts 1 with
    | Some part => ret (Some (Py.strip [Py.backslash] part))
    | None => raise IndexError
    end.

(** [wineuplay.get_default_prefix(arch)] *)
Definition get_default_prefix (self : wineuplay) (arch : string) : M string :=
  let key := "default_" +:+ arch +:+ "_prefix" in
  match runner_config self !! key with
  | Some prefix => ret prefix
  | None => raise (KeyError key)
  end.

(** [wineuplay.create_default_prefix(prefix_dir, arch)] *)
Definition create_default_prefix (self : wineuplay) (prefix_dir : string)
    (arch : option string) : M unit :=
  do_ logger Debug "Creating default wineuplay prefix" [];
  let arch := if Py.truthy_opt arch then or_empty arch else default_arch in
  do found <- path_exists (Py.os_path_dirname prefix_dir);
  do_ (if negb found then os_makedirs (Py.os_path_dirname prefix_dir) else ret tt);
  create_prefix prefix_dir arch (get_executable self).

(** [wineuplay.get_or_create_default_prefix(arch)] *)
Definition get_or_create_default_prefix (self : wineuplay) (arch : option string)
  : M string :=
  let arch :=
    if negb (Py.truthy_opt arch) || String.eqb (or_empty arch) "auto"
    then default_arch else or_empty arch in
  do prefix <- get_default_prefix self arch;
  do found <- path_exists prefix;
  do_ (if negb found then create_default_prefix self prefix (Some arch) else ret tt);
  ret prefix.

(** The expression the three registry readers start with:
    [self.game_config.get("prefix") or
     self.get_or_create_default_prefix(arch=self.game_config.get("arch"))] *)
Definition configured_prefix (self : wineuplay) : M string :=
  if Py.truthy_opt (cfg_prefix (game_config self))
  then ret (or_empty (cfg_prefix (game_config self)))
  else get_or_create_default_prefix self (cfg_arch (game_config self)).

(** The body of the loop over the candidate prefixes in
    [get_uplay_path]: [Some path] when it returns, [None] when it goes
    on to the next candidate. *)
Definition probe_candidate (prefix : string) : M (option string) :=
  do hit <- for_each default_paths (fun default_path =>
              let uplay_path := Py.os_path_join prefix [default_path] in
              do found <- path_exists uplay_path;
              ret (if found then Some uplay_path else None));
  match hit with
  | Some uplay_path => ret (Some uplay_path)
  | None =>
      let user_reg := Py.os_path_join prefix ["user.reg"] in
      do found <- path_exists user_reg;
      if negb found then ret None
      else
        do registry <- WineRegistry_open user_reg;
        do uplay_path <- get_open_command registry;
        if negb (Py.truthy_opt uplay_path) then ret None
        else
          do fixed <- fix_path_case host
                        (get_unix_path host registry (or_empty uplay_path));
          ret (Some fixed)
  end.

(** [wineuplay.get_uplay_path()] *)
Definition get_uplay_path (self : wineuplay) : M string :=
  let custom_path := or_empty (runner_config self !! "uplay_path") in
  do hit <- (if Py.truthy custom_path then
               let custom_path :=
                 abspath host
                   (expanduser host (Py.os_path_join custom_path ["Uplay.exe"])) in
               do found <- path_exists custom_path;
               ret (if found then Some custom_path else None)
             else ret None);
  match hit with
  | Some custom_path => ret custom_path
  | None =>
      do win64 <- get_default_prefix self "win64";
      do win32 <- get_default_prefix self "win32";
      let candidates := [win64; win32; expanduser host "~/.wine"] in
      do found <- for_each candidates probe_candidate;
      ret (or_empty found)
  end.

(** [wineuplay.launch_args] *)
Definition launch_args (self : wineuplay) : M (list string) :=
  do uplay_path <- get_uplay_path self;
  if negb (Py.truthy uplay_path)
  then raise (RuntimeError "Can't find a Uplay executable")
  else ret ([get_executable self; uplay_path]
              ++ split_arguments host (or_empty (runner_config self !! "args"))).

(** The continuation [on_uplay_downloaded] that [install] hands to the
    downloader; [callback] is [None] or the caller's completion code. *)
Definition on_uplay_downloaded (self : wineuplay) (callback : option (M unit))
  : M unit :=
  let dx2010_path := Py.os_path_join (TMP_PATH host) ["dxsetup.zip"] in
  let installer_path := Py.os_path_join (TMP_PATH host) ["UplayInstaller.exe"] in
  do prefix <- get_or_create_default_prefix self None;
  do_ act (EvWineexec dx2010_path "/silent" prefix (get_executable self));
  do_ act (EvWinetricks "corefonts d3dcompiler_43 gdiplus" prefix
             (get_executable self));
  do_ act (EvWineexec installer_path "/S" prefix (get_executable self));
  match callback with
  | Some run_callback => run_callback
  | None => ret tt
  end.

(** [wineuplay.install(version, downloader, callback)]: [downloader]
    receives the address, the destination and the continuation. *)
Definition install (self : wineuplay)
    (downloader : string -> string -> M unit -> M unit)
    (callback : option (M unit)) : M unit :=
  let dx2010_path := Py.os_path_join (TMP_PATH host) ["dxsetup.zip"] in
  let installer_path := Py.os_path_join (TMP_PATH host) ["UplayInstaller.exe"] in
  do_ act (EvDownloadExtract DX2010_INSTALLER_URL dx2010_path);
  downloader UPLAY_INSTALLER_URL installer_path (on_uplay_downloaded self callback).

(** [wineuplay.is_installed(...)] *)
Definition is_installed (self : wineuplay) : M bool :=
  if negb (wine_is_installed self) then ret false
  else
    do prefix <- get_default_prefix self default_arch;
    do found <- path_exists prefix;
    if negb found then ret false
    else
      do uplay_path <- get_uplay_path self;
      path_exists uplay_path.

(** [wineuplay.get_game_id_list()]: the names below the game starter
    key, or [None] when the function runs to its end. *)
Definition get_game_id_list (self : wineuplay) : M (option (gset string)) :=
  do prefix <- configured_prefix self;
  let user_reg := Py.os_path_join prefix ["user.reg"] in
  do found <- path_exists user_reg;
  if found then
    do registry <- WineRegistry_open user_reg;
    (* [if registry:] an instance of a plain class is truthy *)
    do apps <- query_subkeys registry GAME_STARTER_KEY;
    match apps with
    | Some subkeys => ret (Some (dom subkeys))
    | None => raise (AttributeError "keys")
    end
  else ret None.

(** [wineuplay.get_game_path_from_game_id(game_id)] *)
Definition get_game_path_from_game_id (self : wineuplay) (game_id : string)
  : M (option string) :=
  do prefix <- configured_prefix self;
  let system_reg := Py.os_path_join prefix ["system.reg"] in
  do registry <- WineRegistry_open system_reg;
  (* [if registry:] an instance of a plain class is truthy *)
  do_ logger Debug "Checking for game %s in the Wine registry" [game_id];
  do game_path <-
    (if String.eqb (wine_arch self) "win64"
     then query registry (Py.percent_s INSTALLS_KEY_WOW game_id) "InstallDir"
     else query registry (Py.percent_s INSTALLS_KEY game_id) "InstallDir");
  if Py.truthy_opt game_path then
    do_ logger Debug "Game found in %s" [or_empty game_path];
    ret game_path
  else
    do_ logger Warning "Data path for game %s not found." [game_id];
    ret None.

(** [wineuplay.game_path] *)
Definition game_path (self : wineuplay) : M (option string) :=
  if negb (Py.truthy (game_id self)) then ret None
  else get_game_path_from_game_id self (game_id self).

(** [wineuplay.install_game(game_id)] *)
Definition install_game (self : wineuplay) (game_id : string) : M unit :=
  if negb (Py.truthy game_id)
  then raise (ValueError "Missing game ID in wineuplay.install_game")
  else
    do args <- launch_args self;
    act (EvExecute (args ++ [Py.percent_s "uplay://install/" game_id])
           (get_env self None)).

(** The local function [has_uplay_shutdown(times)] of [force_shutdown]:
    [Some true] for [return True], [None] when the loop runs out. *)
Definition has_uplay_shutdown (times : nat) : M (option bool) :=
  for_each (seq 1 times) (fun _ =>
    do_ time_sleep 1;
    do running <- is_running;
    ret (if negb running then Some true else None)).

(** Truth value of [True] or [None]. *)
Definition truthy_flag (o : option bool) : bool :=
  match o with
  | Some flag => flag
  | None => false
  end.

(** [wineuplay.force_shutdown()] *)
Definition force_shutdown (self : wineuplay) : M unit :=
  do running <- is_running;
  if running then
    do_ logger Info "Waiting for Uplay to shutdown..." [];
    do_ act EvShutdown;
    do stopped <- has_uplay_shutdown 10;
    if negb (truthy_flag stopped) then
      do_ logger Info "Forcing Uplay shutdown" [];
      do_ kill;
      do killed <- has_uplay_shutdown 5;
      if negb (truthy_flag killed)
      then logger Error "Failed to shut down wineuplay :(" []
      else ret tt
    else ret tt
  else ret tt.

(** [wineuplay.get_command()] *)
Definition get_command (self : wineuplay) : M (list string) :=
  do command <- launch_args self;
  if negb (default false (cfg_nolaunch (game_config self)))
  then ret (command ++ [Py.percent_s "uplay://launch/" (game_id self)])
  else ret command.

(** [wineuplay.remove_game_data(game_id=None)]: [Some false] for
    [return False], [None] when the function runs to its end. *)
Definition remove_game_data (self : wineuplay) (game_id_arg : option string)
  : M (option bool) :=
  do installed <- is_installed self;
  if negb installed then
    do_ logger Warning "Trying to remove a wineuplay game but it's not installed." [];
    ret (Some false)
  else
    do_ force_shutdown self;
    do args <- launch_args self;
    let target := if Py.truthy_opt game_id_arg then or_empty game_id_arg
                  else game_id self in
    do_ act (EvMonitoredStart (args ++ [Py.percent_s "uplay://uninstall/" target])
               (get_env self (Some false)));
    ret None.

End Runner.

(** ** Reasoning about runs *)

(** The events a run added to the trace it started from. *)
Definition added (w w' : World) (evs : list Event) : Prop :=
  w' = records evs w.

Lemma records_nil w : records [] w = w.
Proof. destruct w; unfold records; simpl. by rewrite app_nil_r. Qed.

Lemma record_records ev w : record ev w = records [ev] w.
Proof. reflexivity. Qed.

Lemma records_records evs1 evs2 w :
  records evs2 (records evs1 w) = records (evs1 ++ evs2) w.
Proof. unfold records; simpl. by rewrite app_assoc. Qed.

Lemma fs_records evs w : fs (records evs w) = fs w.
Proof. reflexivity. Qed.

Lemma hives_records evs w : hives (records evs w) = hives w.
Proof. reflexivity. Qed.

Lemma outcome_records evs w : outcome (records evs w) = outcome w.
Proof. reflexivity. Qed.

Lemma fs_record ev w : fs (record ev w) = fs w.
Proof. reflexivity. Qed.

Lemma hives_record ev w : hives (record ev w) = hives w.
Proof. reflexivity. Qed.

Lemma outcome_record ev w : outcome (record ev w) = outcome w.
Proof. reflexivity. Qed.

(** Reads of the world after some recording are reads of the world. *)
Ltac frame :=
  rewrite ?fs_record, ?fs_records, ?hives_record, ?hives_records,
    ?outcome_record, ?outcome_records.

(** Unfolds one layer of the monad in the goal. *)
Ltac step :=
  unfold bind, ret, raise, emit, act, logger, time_sleep, kill_pid; simpl.

(** Brings nested [record]s into one [records] with a flat list. *)
Ltac norm_trace :=
  rewrite ?record_records, ?records_records, <- ?app_assoc; simpl.

(** ** The open command of the URI handler *)

Lemma split_without_separator sep s :
  Py.contains sep s = false → Py.split sep s = [s].
Proof.
  induction s as [|c s IH]; simpl; [done|].
  destruct (Ascii.eqb c sep); simpl; [done|].
  intros H. by rewrite IH.
Qed.

(** What [get_open_command] makes of the queried value. *)
Definition open_command_result (value : option string) : Result (option string) :=
  if Py.truthy_opt value then
    match nth_error (Py.split Py.dquote (or_empty value)) 1 with
    | Some part => Ok (Some (Py.strip [Py.backslash] part))
    | None => Raise IndexError
    end
  else Ok None.

Lemma get_open_command_run (registry : WineRegistry) (w : World) :
  get_open_command registry w
  = (open_command_result
       (keys registry !! OPEN_COMMAND_KEY ≫= (fun key => key !! "default")),
     record (EvQuery (reg_filename registry) OPEN_COMMAND_KEY (Some "default")) w).
Proof.
  unfold get_open_command, open_command_result, query. step.
  destruct (Py.truthy_opt _); simpl; [|done].
  by case_match.
Qed.

(** C9: the parse of the open command is partial.  A value that is not
    empty and holds no double quote makes [parts[1]] raise [IndexError];
    [None] is returned exactly when the queried value is absent or empty. *)
Theorem get_open_command_not_total (registry : WineRegistry) (w : World) :
  let value := keys registry !! OPEN_COMMAND_KEY ≫= (fun key => key !! "default") in
  (∀ v, value = Some v → v ≠ "" → Py.contains Py.dquote v = false →
        fst (get_open_command registry w) = Raise IndexError)
  ∧ (fst (get_open_command registry w) = Ok None ↔ Py.truthy_opt value = false).
Proof.
  intros value. rewrite get_open_command_run. fold value.
  unfold open_command_result. simpl. split.
  - intros v Hv Hne Hq. rewrite Hv.
    change (or_empty (Some v)) with v.
    rewrite (split_without_separator _ _ Hq).
    by destruct v.
  - destruct (Py.truthy_opt value); simpl.
    + case_match; simpl; split; intros; discriminate.
    + done.
Qed.

(** ** The search for the launcher executable *)

(** The paths of the existence probes among some events, in order. *)
Definition probed (evs : list Event) : list string :=
  omap (fun ev => match ev with EvPathExists path _ => Some path | _ => None end) evs.

(** The paths one candidate prefix is probed at, in order. *)
Definition candidate_paths (prefix : string) : list string :=
  map (fun default_path => Py.os_path_join prefix [default_path]) default_paths
    ++ [Py.os_path_join prefix ["user.reg"]].

(** The value a registry file holds under a key and a name. *)
Definition registry_value (w : World) (reg_filename key name : string) : option string :=
  default ∅ (hives w !! reg_filename) !! key ≫= (fun values => values !! name).

(** The path of the custom executable, when a custom location is set. *)
Definition custom_executable (host : Host) (self : wineuplay) : option string :=
  let custom_path := or_empty (runner_config self !! "uplay_path") in
  if Py.truthy custom_path
  then Some (abspath host (expanduser host (Py.os_path_join custom_path ["Uplay.exe"])))
  else None.

Lemma path_exists_run path w :
  path_exists path w
  = (Ok (bool_decide (path ∈ fs w)),
     records [EvPathExists path (bool_decide (path ∈ fs w))] w).
Proof. reflexivity. Qed.

Lemma probed_app evs1 evs2 : probed (evs1 ++ evs2) = probed evs1 ++ probed evs2.
Proof. unfold probed. apply omap_app. Qed.

(** What one candidate prefix yields against the files and registries of
    a world, in the words of the specification: the first well-known
    place that exists; else, when the prefix has a [user.reg], the path
    parsed out of the open command found there, if any, case-corrected
    against the disk; else nothing. *)
Definition candidate_hit (host : Host) (w : World) (prefix : string)
  : Result (option string) :=
  match List.find (fun path => bool_decide (path ∈ fs w))
          (map (fun default_path => Py.os_path_join prefix [default_path]) default_paths)
  with
  | Some path => Ok (Some path)
  | None =>
      let user_reg := Py.os_path_join prefix ["user.reg"] in
      if bool_decide (user_reg ∈ fs w) then
        match open_command_result (registry_value w user_reg OPEN_COMMAND_KEY "default") with
        | Ok uplay_path =>
            if Py.truthy_opt uplay_path
            then Ok (Some (case_corrected host (fs w)
                             (get_unix_path host
                                (mkRegistry user_reg (default ∅ (hives w !! user_reg)))
                                (or_empty uplay_path))))
            else Ok None
        | Raise e => Raise e
        end
      else Ok None
  end.

(** The existence probes of the well-known places: one after the other,
    up to the first that exists. *)
Fixpoint place_probes (w : World) (places : list string) : list Event :=
  match places with
  | [] => []
  | place :: places' =>
      if bool_decide (place ∈ fs w) then [EvPathExists place true]
      else EvPathExists place false :: place_probes w places'
  end.

(** The calls made for one candidate prefix, in order: the probes of the
    well-known places; when none exists, the probe of [user.reg]; when
    that exists, the opening of the registry and the query of the open
    command; and, for a command that names a path, its case correction. *)
Definition candidate_events (host : Host) (w : World) (prefix : string) : list Event :=
  let places :=
    map (fun default_path => Py.os_path_join prefix [default_path]) default_paths in
  let user_reg := Py.os_path_join prefix ["user.reg"] in
  place_probes w places
    ++ match List.find (fun path => bool_decide (path ∈ fs w)) places with
       | Some _ => []
       | None =>
           EvPathExists user_reg (bool_decide (user_reg ∈ fs w))
           :: (if bool_decide (user_reg ∈ fs w) then
                 [EvOpenRegistry user_reg;
                  EvQuery user_reg OPEN_COMMAND_KEY (Some "default")]
                   ++ match open_command_result
                              (registry_value w user_reg OPEN_COMMAND_KEY "default") with
                      | Ok uplay_path =>
                          if Py.truthy_opt uplay_path
                          then [EvFixPathCase
                                  (get_unix_path host
                                     (mkRegistry user_reg
                                        (default ∅ (hives w !! user_reg)))
                                     (or_empty uplay_path))]
                          else []
                      | Raise _ => []
                      end
               else [])
       end.

(** The loop over the candidates, in the words of the specification: the
    candidates are taken in order and the first that yields something
    (or raises) ends the search; what is answered, and the calls made. *)
Fixpoint search (host : Host) (w : World) (candidates : list string)
  : Result (option string) * list Event :=
  match candidates with
  | [] => (Ok None, [])
  | candidate :: candidates' =>
      match candidate_hit host w candidate with
      | Ok None =>
          let (answer, evs) := search host w candidates' in
          (answer, candidate_events host w candidate ++ evs)
      | decided => (decided, candidate_events host w candidate)
      end
  end.

(** Whether a call is about the given candidate prefix: a probe of one of
    its three paths, a read of its [user.reg], or the case correction of
    the path that the open command of its [user.reg] names. *)
Definition about_candidate (host : Host) (w : World) (prefix : string) (ev : Event)
  : Prop :=
  let user_reg := Py.os_path_join prefix ["user.reg"] in
  match ev with
  | EvPathExists path _ => path ∈ candidate_paths prefix
  | EvOpenRegistry reg => reg = user_reg
  | EvQuery reg key name =>
      reg = user_reg ∧ key = OPEN_COMMAND_KEY ∧ name = Some "default"
  | EvFixPathCase path =>
      ∃ uplay_path,
        open_command_result (registry_value w user_reg OPEN_COMMAND_KEY "default")
        = Ok uplay_path
        ∧ path = get_unix_path host (mkRegistry user_reg (default ∅ (hives w !! user_reg)))
                   (or_empty uplay_path)
  | _ => False
  end.

Definition result_map {A B} (f : A → B) (r : Result A) : Result B :=
  match r with
  | Ok a => Ok (f a)
  | Raise e => Raise e
  end.

Section Search.

Variable host : Host.

Lemma fix_path_case_run (path : string) (w : World) :
  fix_path_case host path w
  = (Ok (case_corrected host (fs w) path), records [EvFixPathCase path] w).
Proof. reflexivity. Qed.

(** One candidate: the run does not depend on the trace so far; it yields
    what [candidate_hit] says and makes the calls of [candidate_events]. *)
Lemma probe_candidate_run (prefix : string) (w : World) (pre : list Event) :
  probe_candidate host prefix (records pre w)
  = (candidate_hit host w prefix,
     records (pre ++ candidate_events host w prefix) w).
Proof.
  unfold probe_candidate, candidate_hit, candidate_events, registry_value, default_paths.
  cbn [for_each map app List.find place_probes].
  set (p1 := Py.os_path_join prefix [_]).
  set (p2 := Py.os_path_join prefix [_]).
  set (p3 := Py.os_path_join prefix [_]).
  unfold bind at 1 2 3. rewrite path_exists_run, fs_records.
  destruct (bool_decide (p1 ∈ fs w)) eqn:E1.
  { step. by norm_trace. }
  step. frame. destruct (bool_decide (p2 ∈ fs w)) eqn:E2.
  { by norm_trace. }
  simpl. frame. destruct (bool_decide (p3 ∈ fs w)) eqn:E3; cycle 1.
  { simpl. by norm_trace. }
  simpl. unfold WineRegistry_open. simpl. frame.
  set (registry := mkRegistry p3 (default ∅ (hives w !! p3))).
  rewrite get_open_command_run. simpl.
  destruct (open_command_result _) as [uplay_path|e]; simpl; [|by norm_trace].
  destruct (Py.truthy_opt uplay_path); simpl; [|by norm_trace].
  frame. by norm_trace.
Qed.

Lemma place_probes_probed (w : World) (places : list string) :
  probed (place_probes w places) `prefix_of` places
  ∧ (List.find (fun path => bool_decide (path ∈ fs w)) places = None →
     probed (place_probes w places) = places).
Proof.
  induction places as [|place places [IH1 IH2]]; [done|]. simpl.
  destruct (bool_decide (place ∈ fs w)); simpl.
  - split; [|discriminate]. by exists places.
  - split.
    + by apply prefix_cons.
    + intros Hnone. by rewrite (IH2 Hnone).
Qed.

(** The probes of one candidate follow [candidate_paths], and all of
    them are made when the candidate yields nothing. *)
Lemma candidate_events_probed (prefix : string) (w : World) :
  probed (candidate_events host w prefix) `prefix_of` candidate_paths prefix
  ∧ (candidate_hit host w prefix = Ok None →
     probed (candidate_events host w prefix) = candidate_paths prefix).
Proof.
  unfold candidate_events, candidate_hit, candidate_paths.
  set (places := map _ default_paths).
  set (user_reg := Py.os_path_join prefix ["user.reg"]).
  destruct (place_probes_probed w places) as [Hpre Hfull].
  rewrite probed_app.
  destruct (List.find _ places) as [found|].
  - rewrite app_nil_r. split; [by apply prefix_app_r|discriminate].
  - rewrite (Hfull eq_refl).
    assert (Hrest : ∀ b evs,
              probed evs = [] → probed (EvPathExists user_reg b :: evs) = [user_reg]).
    { intros b evs Hevs. change (probed (EvPathExists user_reg b :: evs))
        with (user_reg :: probed evs). by rewrite Hevs. }
    rewrite Hrest; [done|].
    destruct (bool_decide (user_reg ∈ fs w)); [|done].
    destruct (open_command_result _) as [uplay_path|e]; [|done].
    by destruct (Py.truthy_opt uplay_path).
Qed.

Lemma probe_candidate_frame (prefix : string) (w : World) :
  ∃ evs : list Event,
    (∀ pre, probe_candidate host prefix (records pre w)
            = (candidate_hit host w prefix, records (pre ++ evs) w))
    ∧ probed evs `prefix_of` candidate_paths prefix
    ∧ (candidate_hit host w prefix = Ok None → probed evs = candidate_paths prefix).
Proof.
  exists (candidate_events host w prefix).
  split; [apply probe_candidate_run|apply candidate_events_probed].
Qed.

Lemma probe_candidate_result (prefix : string) (w : World) :
  fst (probe_candidate host prefix w) = candidate_hit host w prefix.
Proof.
  pose proof (probe_candidate_run prefix w []) as Hrun.
  rewrite records_nil in Hrun. by rewrite Hrun.
Qed.

(** The loop over the candidates answers and calls as [search] says. *)
Lemma for_each_candidates_run (candidates : list string) (w : World) (pre : list Event) :
  for_each candidates (probe_candidate host) (records pre w)
  = (fst (search host w candidates),
     records (pre ++ snd (search host w candidates)) w).
Proof.
  revert pre. induction candidates as [|c cs IH]; intros pre.
  { simpl. unfold ret. by rewrite app_nil_r. }
  cbn [for_each search]. unfold bind at 1. rewrite probe_candidate_run.
  destruct (candidate_hit host w c) as [[path|]|e]; [done| |done].
  rewrite IH. destruct (search host w cs) as [answer evs]. cbn [fst snd].
  by rewrite app_assoc.
Qed.

(** Every call made for a candidate is about that candidate. *)
Lemma candidate_events_about (prefix : string) (w : World) (ev : Event) :
  ev ∈ candidate_events host w prefix → about_candidate host w prefix ev.
Proof.
  unfold candidate_events, about_candidate, candidate_paths, default_paths.
  cbn [map List.find place_probes].
  set (p1 := Py.os_path_join prefix [_]).
  set (p2 := Py.os_path_join prefix [_]).
  set (p3 := Py.os_path_join prefix [_]).
  assert (H1 : p1 ∈ [p1; p2] ++ [p3]) by (by left).
  assert (H2 : p2 ∈ [p1; p2] ++ [p3]) by (by right; left).
  assert (H3 : p3 ∈ [p1; p2] ++ [p3]) by (by right; right; left).
  destruct (bool_decide (p1 ∈ fs w)).
  { rewrite app_nil_r. intros Hin. apply list_elem_of_singleton in Hin as ->. exact H1. }
  destruct (bool_decide (p2 ∈ fs w)).
  { rewrite app_nil_r. intros Hin.
    apply elem_of_cons in Hin as [->|Hin]; [exact H1|].
    apply list_elem_of_singleton in Hin as ->. exact H2. }
  cbn [app]. intros Hin.
  apply elem_of_cons in Hin as [->|Hin]; [exact H1|].
  apply elem_of_cons in Hin as [->|Hin]; [exact H2|].
  apply elem_of_cons in Hin as [->|Hin]; [exact H3|].
  destruct (bool_decide (p3 ∈ fs w)); [|by apply elem_of_nil in Hin].
  apply elem_of_cons in Hin as [->|Hin]; [done|].
  apply elem_of_cons in Hin as [->|Hin]; [done|].
  destruct (open_command_result _) as [uplay_path|e]; [|by apply elem_of_nil in Hin].
  destruct (Py.truthy_opt uplay_path); [|by apply elem_of_nil in Hin].
  apply list_elem_of_singleton in Hin as ->. by exists uplay_path.
Qed.

(** The first candidate that yields something decides the search, and
    the calls made are those of the candidates up to it. *)
Lemma search_decided (w : World) (candidates : list string) (i : nat) (c : string) :
  candidates !! i = Some c →
  (∀ j c', j < i → candidates !! j = Some c' → candidate_hit host w c' = Ok None) →
  candidate_hit host w c ≠ Ok None →
  search host w candidates
  = (candidate_hit host w c,
     concat (map (candidate_events host w) (take (S i) candidates))).
Proof.
  revert i. induction candidates as [|c0 cs IH]; intros i Hi Hbefore Hhit.
  { by rewrite lookup_nil in Hi. }
  destruct i as [|i]; simpl in Hi.
  - injection Hi as ->. cbn [search take map concat]. rewrite app_nil_r.
    by destruct (candidate_hit host w c) as [[path|]|e].
  - cbn [search take map concat].
    rewrite (Hbefore 0 c0 ltac:(lia) eq_refl).
    rewrite (IH i Hi); [done| |done].
    intros j c' Hj Hc'. apply (Hbefore (S j) c'); [lia|done].
Qed.

Lemma search_undecided (w : World) (candidates : list string) :
  (∀ c, c ∈ candidates → candidate_hit host w c = Ok None) →
  search host w candidates
  = (Ok None, concat (map (candidate_events host w) candidates)).
Proof.
  induction candidates as [|c cs IH]; intros Hall; [done|].
  cbn [search map concat]. rewrite (Hall c ltac:(left)).
  rewrite IH; [done|]. intros c' Hc'. apply Hall. by right.
Qed.

Lemma candidate_hit_nothing (w : World) (prefix : string) :
  (∀ path,
     path ∈ map (fun default_path => Py.os_path_join prefix [default_path]) default_paths →
     path ∉ fs w) →
  (Py.os_path_join prefix ["user.reg"] ∉ fs w
   ∨ Py.truthy_opt (registry_value w (Py.os_path_join prefix ["user.reg"])
                      OPEN_COMMAND_KEY "default") = false) →
  candidate_hit host w prefix = Ok None.
Proof.
  intros Hno Hreg. unfold candidate_hit, default_paths in *. cbn [map List.find] in *.
  assert (H1 := Hno _ ltac:(left)).
  assert (H2 := Hno _ ltac:(right; left)).
  rewrite (bool_decide_eq_false_2 _ H1), (bool_decide_eq_false_2 _ H2).
  destruct Hreg as [Hreg|Hreg].
  - by rewrite (bool_decide_eq_false_2 _ Hreg).
  - destruct (bool_decide _); [|done].
    unfold open_command_result. by rewrite Hreg.
Qed.

Lemma candidate_hit_static (w : World) (prefix exe : string) :
  exe ∈ map (fun default_path => Py.os_path_join prefix [default_path]) default_paths →
  exe ∈ fs w →
  (∀ other,
     other ∈ map (fun default_path => Py.os_path_join prefix [default_path]) default_paths →
     other ∈ fs w → other = exe) →
  candidate_hit host w prefix = Ok (Some exe).
Proof.
  intros Hin Hexe Honly.
  unfold candidate_hit, default_paths in *. cbn [map List.find] in *.
  destruct (bool_decide _) eqn:E1.
  - apply bool_decide_eq_true_1 in E1.
    by rewrite (Honly _ ltac:(left) E1).
  - apply bool_decide_eq_false_1 in E1.
    apply elem_of_cons in Hin as [->|Hin]; [done|].
    apply elem_of_cons in Hin as [->|Hin]; [|by apply elem_of_nil in Hin].
    by rewrite (bool_decide_eq_true_2 _ Hexe).
Qed.

(** The events of the custom-location step when it does not return. *)
Definition custom_probe (self : wineuplay) : list Event :=
  match custom_executable host self with
  | Some exe => [EvPathExists exe false]
  | None => []
  end.

Lemma get_uplay_path_search_run (self : wineuplay) (w : World) (win64 win32 : string)
    (r : Result (option string)) (evs : list Event) :
  runner_config self !! "default_win64_prefix" = Some win64 →
  runner_config self !! "default_win32_prefix" = Some win32 →
  (∀ exe, custom_executable host self = Some exe → exe ∉ fs w) →
  (∀ pre, for_each [win64; win32; expanduser host "~/.wine"] (probe_candidate host)
            (records pre w) = (r, records (pre ++ evs) w)) →
  get_uplay_path host self w
  = (result_map or_empty r, records (custom_probe self ++ evs) w).
Proof.
  intros H64 H32 Hmiss Hloop.
  unfold get_uplay_path, custom_probe, custom_executable in *.
  unfold get_default_prefix.
  change ("default_" +:+ "win64" +:+ "_prefix") with "default_win64_prefix".
  change ("default_" +:+ "win32" +:+ "_prefix") with "default_win32_prefix".
  rewrite H64, H32.
  set (exe := abspath host _) in *.
  destruct (Py.truthy (or_empty (runner_config self !! "uplay_path"))).
  - specialize (Hmiss _ eq_refl).
    unfold bind at 1 2. rewrite path_exists_run, (bool_decide_eq_false_2 _ Hmiss).
    unfold bind, ret. cbv beta iota. rewrite Hloop. by destruct r.
  - unfold bind, ret. cbv beta iota.
    specialize (Hloop []). rewrite records_nil in Hloop.
    rewrite Hloop. by destruct r.
Qed.

(** With both default prefixes configured and no custom executable on
    disk, [get_uplay_path] answers and calls as [search] says for the
    three candidates. *)
Lemma get_uplay_path_by_search (self : wineuplay) (w : World) (win64 win32 : string) :
  runner_config self !! "default_win64_prefix" = Some win64 →
  runner_config self !! "default_win32_prefix" = Some win32 →
  (∀ exe, custom_executable host self = Some exe → exe ∉ fs w) →
  get_uplay_path host self w
  = (result_map or_empty
       (fst (search host w [win64; win32; expanduser host "~/.wine"])),
     records
       (custom_probe self
          ++ snd (search host w [win64; win32; expanduser host "~/.wine"])) w).
Proof.
  intros H64 H32 Hmiss.
  apply (get_uplay_path_search_run self w win64 win32); try done.
  intros pre. apply for_each_candidates_run.
Qed.

(** C5: a custom location whose executable exists is returned after one
    existence probe of that executable; no registry is opened or
    queried and no default or fallback prefix is probed. *)
Theorem custom_location_wins (self : wineuplay) (w : World) (custom_path : string) :
  runner_config self !! "uplay_path" = Some custom_path →
  custom_path ≠ "" →
  let exe := abspath host (expanduser host (Py.os_path_join custom_path ["Uplay.exe"])) in
  exe ∈ fs w →
  get_uplay_path host self w = (Ok exe, records [EvPathExists exe true] w).
Proof.
  intros Hcfg Hne exe Hexe. unfold get_uplay_path. rewrite Hcfg.
  destruct custom_path as [|c rest]; [done|].
  change (or_empty (Some (String c rest))) with (String c rest).
  cbn [Py.truthy]. fold exe.
  unfold bind. rewrite path_exists_run.
  by rewrite (bool_decide_eq_true_2 _ Hexe).
Qed.

End Search.

(** ** The shutdown protocol *)

Local Open Scope nat_scope.

(** The world after [count] more process lookups and the events [evs]. *)
Definition after (w : World) (count : nat) (evs : list Event) : World :=
  mkWorld (fs w) (hives w) (pids w) (count + lookups w) (outcome w) (trace w ++ evs).

(** Whether the [n]-th process lookup finds the launcher. *)
Definition running_at (w : World) (n : nat) : bool := Py.truthy_opt (pids w n).

(** The events of [count] polls, the first of which makes lookup [first]:
    a sleep of one second, then the lookup. *)
Definition poll_events (answers : nat → option string) (first count : nat) : list Event :=
  flat_map (fun n => [EvSleep 1; EvGetPid UPLAY_PATTERN (answers n)]) (seq first count).

Lemma after_zero w : after w 0 [] = w.
Proof. destruct w; unfold after; simpl. by rewrite app_nil_r. Qed.

Lemma after_after w c1 evs1 c2 evs2 :
  after (after w c1 evs1) c2 evs2 = after w (c1 + c2) (evs1 ++ evs2).
Proof.
  unfold after; simpl. rewrite app_assoc. f_equal. lia.
Qed.

Lemma records_after w evs : records evs w = after w 0 evs.
Proof. reflexivity. Qed.

Lemma is_running_run w :
  is_running w
  = (Ok (running_at w (lookups w)),
     after w 1 [EvGetPid UPLAY_PATTERN (pids w (lookups w))]).
Proof. reflexivity. Qed.

Lemma poll_events_S answers first count :
  poll_events answers first (S count)
  = [EvSleep 1; EvGetPid UPLAY_PATTERN (answers first)]
      ++ poll_events answers (S first) count.
Proof. reflexivity. Qed.

Lemma poll_events_length answers first count :
  length (poll_events answers first count) = 2 * count.
Proof.
  revert first. induction count as [|count IH]; intros first; [done|].
  rewrite poll_events_S, length_app, IH. simpl. lia.
Qed.

(** A loop of polls: it makes [k] polls, at most [times]; it stops with
    [True] at the first poll that finds the launcher gone, and runs out
    when all [times] polls find it running. *)
Lemma poll_loop_run (body : nat → M (option bool)) :
  (∀ n w, body n w
          = (Ok (if negb (running_at w (lookups w)) then Some true else None),
             after w 1 [EvSleep 1; EvGetPid UPLAY_PATTERN (pids w (lookups w))])) →
  ∀ (times start : nat) (w : World),
  ∃ (k : nat) (stopped : bool),
    for_each (seq start times) body w
    = (Ok (if stopped then Some true else None),
       after w k (poll_events (pids w) (lookups w) k))
    ∧ k ≤ times
    ∧ (∀ j, S j < k → running_at w (lookups w + j) = true)
    ∧ (if stopped
       then ∃ k', k = S k' ∧ running_at w (lookups w + k') = false
       else k = times ∧ ∀ j, j < k → running_at w (lookups w + j) = true).
Proof.
  intros Hbody times. induction times as [|times IH]; intros start w.
  { exists 0, false. simpl. unfold ret. rewrite after_zero.
    repeat split; intros; lia. }
  cbn [seq for_each]. unfold bind at 1. rewrite Hbody.
  destruct (running_at w (lookups w)) eqn:Erun; cbn [negb].
  - set (w1 := after w 1 _).
    destruct (IH (S start) w1) as (k & stopped & Hrun & Hle & Hbefore & Hlast).
    exists (S k), stopped. rewrite Hrun. split; [|split; [|split]].
    + unfold w1. rewrite after_after, poll_events_S. reflexivity.
    + lia.
    + intros [|j] Hj.
      * by rewrite Nat.add_0_r.
      * specialize (Hbefore j ltac:(lia)).
        unfold running_at in *. simpl in Hbefore.
        by replace (lookups w + S j) with (S (lookups w + j)) by lia.
    + destruct stopped.
      * destruct Hlast as (k' & -> & Hgone). exists (S k'). split; [done|].
        unfold running_at in *. simpl in Hgone.
        by replace (lookups w + S k') with (S (lookups w + k')) by lia.
      * destruct Hlast as [-> Hall]. split; [done|].
        intros [|j] Hj.
        -- by rewrite Nat.add_0_r.
        -- specialize (Hall j ltac:(lia)).
           unfold running_at in *. simpl in Hall.
           by replace (lookups w + S j) with (S (lookups w + j)) by lia.
  - exists 1, true. split; [|split; [|split]].
    + reflexivity.
    + lia.
    + intros j Hj. lia.
    + exists 0. split; [done|]. by rewrite Nat.add_0_r.
Qed.

Lemma has_uplay_shutdown_run (times : nat) (w : World) :
  ∃ (k : nat) (stopped : bool),
    has_uplay_shutdown times w
    = (Ok (if stopped then Some true else None),
       after w k (poll_events (pids w) (lookups w) k))
    ∧ k ≤ times
    ∧ (∀ j, S j < k → running_at w (lookups w + j) = true)
    ∧ (if stopped
       then ∃ k', k = S k' ∧ running_at w (lookups w + k') = false
       else k = times ∧ ∀ j, j < k → running_at w (lookups w + j) = true).
Proof.
  unfold has_uplay_shutdown. apply poll_loop_run.
  intros n w'. unfold bind, time_sleep, emit. rewrite is_running_run.
  unfold ret. rewrite record_records, records_after, after_after.
  reflexivity.
Qed.

Lemma logger_run level fmt args w :
  logger level fmt args w = (Ok tt, after w 0 [EvLog level fmt args]).
Proof. reflexivity. Qed.

Lemma act_run_ok ev w :
  outcome w ev = None → act ev w = (Ok tt, after w 0 [ev]).
Proof. intros H. unfold act. by rewrite H. Qed.

Lemma act_run_raise ev e w :
  outcome w ev = Some e → act ev w = (Raise e, after w 0 [ev]).
Proof. intros H. unfold act. by rewrite H. Qed.

Lemma kill_run w :
  kill w = (Ok tt, after w 1 [EvGetPid UPLAY_PATTERN (pids w (lookups w));
                              EvKillPid (pids w (lookups w))]).
Proof.
  unfold kill, bind, get_pid, kill_pid, emit.
  rewrite record_records, records_after.
  change (record ?ev (looked_up w)) with (after w 1 [ev]).
  by rewrite after_after.
Qed.

(** The events up to the graceful stop request. *)
Definition entry_events (w : World) : list Event :=
  [EvGetPid UPLAY_PATTERN (pids w (lookups w));
   EvLog Info "Waiting for Uplay to shutdown..." [];
   EvShutdown].

(** The events of the escalation to a forced kill, after the ten
    graceful polls. *)
Definition escalation_events (w : World) : list Event :=
  [EvLog Info "Forcing Uplay shutdown" [];
   EvGetPid UPLAY_PATTERN (pids w (lookups w + 11));
   EvKillPid (pids w (lookups w + 11))].

Definition FAILED_LOG : Event := EvLog Error "Failed to shut down wineuplay :(" [].

Lemma poll_events_ext answers1 answers2 first count :
  (∀ n, answers1 n = answers2 n) →
  poll_events answers1 first count = poll_events answers2 first count.
Proof.
  intros Hext. revert first. induction count as [|count IH]; intros first; [done|].
  by rewrite !poll_events_S, Hext, IH.
Qed.

Lemma kill_not_in_polls answers first count pid :
  EvKillPid pid ∉ poll_events answers first count.
Proof.
  revert first. induction count as [|count IH]; intros first.
  - apply not_elem_of_nil.
  - rewrite poll_events_S. intros Hin.
    apply elem_of_app in Hin as [Hin|Hin]; [|by apply (IH (S first))].
    apply elem_of_cons in Hin as [Hin|Hin]; [discriminate|].
    apply elem_of_cons in Hin as [Hin|Hin]; [discriminate|].
    by apply elem_of_nil in Hin.
Qed.

(** The run of [force_shutdown] on a running launcher whose graceful stop
    request does not raise. *)
Lemma force_shutdown_run (self : wineuplay) (w : World) :
  running_at w (lookups w) = true →
  outcome w EvShutdown = None →
  ∃ (g : nat) (tail : list Event) (count : nat),
    force_shutdown self w
    = (Ok tt, after w count
                (entry_events w ++ poll_events (pids w) (S (lookups w)) g ++ tail))
    ∧ 1 ≤ g ≤ 10
    ∧ (∀ j, 1 ≤ j < g → running_at w (lookups w + j) = true)
    ∧ ((running_at w (lookups w + g) = false ∧ tail = [])
       ∨ (g = 10 ∧ running_at w (lookups w + 10) = true
          ∧ ∃ (f : nat) (final : list Event),
              tail = escalation_events w
                       ++ poll_events (pids w) (lookups w + 12) f ++ final
              ∧ 1 ≤ f ≤ 5
              ∧ (∀ j, 1 ≤ j < f → running_at w (lookups w + 11 + j) = true)
              ∧ ((running_at w (lookups w + 11 + f) = false ∧ final = [])
                 ∨ (f = 5 ∧ running_at w (lookups w + 16) = true
                    ∧ final = [FAILED_LOG])))).
Proof.
  intros Hentry Hstop. unfold force_shutdown.
  unfold bind at 1. rewrite is_running_run, Hentry.
  unfold bind at 1. rewrite logger_run, after_after.
  unfold bind at 1. rewrite act_run_ok by done. rewrite after_after.
  cbn [Nat.add app]. fold (entry_events w).
  set (w1 := after w 1 (entry_events w)).
  destruct (has_uplay_shutdown_run 10 w1) as (g & stopped & Hrun & Hle & Hbefore & Hlast).
  unfold bind at 1. rewrite Hrun.
  change (pids w1) with (pids w) in *.
  change (lookups w1) with (S (lookups w)) in *.
  assert (Hearlier : ∀ j, 1 ≤ j < g → running_at w (lookups w + j) = true).
  { intros [|j] Hj; [lia|]. specialize (Hbefore j ltac:(lia)).
    unfold running_at in *.
    by replace (lookups w + S j) with (S (lookups w) + j) by lia. }
  destruct stopped; cbn [truthy_flag negb].
  { destruct Hlast as (k' & -> & Hgone).
    exists (S k'), [], (1 + S k'). split; [|split; [lia|split; [done|]]].
    - unfold ret, w1. by rewrite after_after, app_nil_r.
    - left. split; [|done]. unfold running_at in *.
      by replace (lookups w + S k') with (S (lookups w) + k') by lia. }
  destruct Hlast as [-> Hall].
  unfold bind at 1. rewrite logger_run, after_after.
  unfold bind at 1. rewrite kill_run, after_after.
  set (w2 := after w1 _ _).
  destruct (has_uplay_shutdown_run 5 w2) as (f & killed & Hrun2 & Hle2 & Hbefore2 & Hlast2).
  unfold bind at 1. rewrite Hrun2.
  change (pids w2) with (pids w) in *.
  change (lookups w2) with (S (S (S (S (S (S (S (S (S (S (S (S (lookups w)))))))))))))
    in *.
  assert (Hearlier2 : ∀ j, 1 ≤ j < f → running_at w (lookups w + 11 + j) = true).
  { intros [|j] Hj; [lia|]. specialize (Hbefore2 j ltac:(lia)).
    unfold running_at in *.
    by replace (lookups w + 11 + S j)
      with (S (S (S (S (S (S (S (S (S (S (S (S (lookups w)))))))))))) + j) by lia. }
  assert (Hten : running_at w (lookups w + 10) = true).
  { specialize (Hall 9 ltac:(lia)). unfold running_at in *.
    by replace (lookups w + 10) with (S (lookups w) + 9) by lia. }
  assert (Hworld : ∀ c evs c' evs',
            c = c' → evs = evs' → after w c evs = after w c' evs').
  { by intros ???? -> ->. }
  destruct killed; cbn [truthy_flag negb].
  - destruct Hlast2 as (f' & -> & Hgone).
    exists 10, (escalation_events w ++ poll_events (pids w) (lookups w + 12) (S f')),
      (12 + S f').
    split; [|split; [lia|split; [done|]]].
    + unfold ret, w2, w1. rewrite !after_after.
      change (pids (after w _ _)) with (pids w).
      change (lookups (after w ?c _)) with (c + lookups w).
      f_equal. apply Hworld; [lia|].
      unfold escalation_events. rewrite <- !app_assoc. cbn [app].
      repeat (f_equal; try lia).
    + right. split; [done|]. split; [done|].
      exists (S f'), []. split; [by rewrite app_nil_r|].
      split; [lia|]. split; [done|]. left. split; [|done].
      unfold running_at in *.
      by replace (lookups w + 11 + S f')
        with (S (S (S (S (S (S (S (S (S (S (S (S (lookups w)))))))))))) + f') by lia.
  - destruct Hlast2 as [-> Hall2].
    rewrite logger_run, after_after.
    exists 10, (escalation_events w ++ poll_events (pids w) (lookups w + 12) 5
                  ++ [FAILED_LOG]), 17.
    split; [|split; [lia|split; [done|]]].
    + unfold w2, w1. rewrite !after_after.
      change (pids (after w _ _)) with (pids w).
      change (lookups (after w ?c _)) with (c + lookups w).
      f_equal. apply Hworld; [lia|].
      unfold escalation_events. rewrite <- !app_assoc. cbn [app].
      repeat (f_equal; try lia).
    + right. split; [done|]. split; [done|].
      exists 5, [FAILED_LOG]. split; [done|].
      split; [lia|]. split; [done|]. right. split; [done|]. split; [|done].
      specialize (Hall2 4 ltac:(lia)). unfold running_at in *.
      by replace (lookups w + 16)
        with (S (S (S (S (S (S (S (S (S (S (S (S (lookups w)))))))))))) + 4) by lia.
Qed.

(** C3: on a running launcher whose graceful stop request went through,
    [force_shutdown] makes [g] graceful polls with [1 <= g <= 10], each a
    sleep of one second and one lookup, and stops at the first poll that
    finds the launcher gone; only when all ten found it running does it
    kill and make [f] more polls with [1 <= f <= 5], again stopping at
    the first that finds it gone.  When some graceful poll [j] finds the
    launcher gone, at most [j] polls are made and no kill is issued. *)
Theorem force_shutdown_poll_bounds (self : wineuplay) (w : World) :
  running_at w (lookups w) = true →
  outcome w EvShutdown = None →
  ∃ (g : nat) (tail : list Event) (count : nat),
    force_shutdown self w
    = (Ok tt, after w count
                (entry_events w ++ poll_events (pids w) (S (lookups w)) g ++ tail))
    ∧ 1 ≤ g ≤ 10
    ∧ (∀ j, 1 ≤ j < g → running_at w (lookups w + j) = true)
    ∧ ((running_at w (lookups w + g) = false ∧ tail = [])
       ∨ (g = 10 ∧ running_at w (lookups w + 10) = true
          ∧ ∃ (f : nat) (final : list Event),
              tail = escalation_events w
                       ++ poll_events (pids w) (lookups w + 12) f ++ final
              ∧ 1 ≤ f ≤ 5
              ∧ (∀ j, 1 ≤ j < f → running_at w (lookups w + 11 + j) = true)
              ∧ ((running_at w (lookups w + 11 + f) = false ∧ final = [])
                 ∨ (f = 5 ∧ running_at w (lookups w + 16) = true
                    ∧ final = [FAILED_LOG]))))
    ∧ (∀ j, 1 ≤ j ≤ 10 → running_at w (lookups w + j) = false →
         g ≤ j ∧ tail = []
         ∧ ∀ pid, EvKillPid pid
                  ∉ entry_events w ++ poll_events (pids w) (S (lookups w)) g ++ tail).
Proof.
  intros Hentry Hstop.
  destruct (force_shutdown_run self w Hentry Hstop)
    as (g & tail & count & Hrun & Hg & Hbefore & Hcases).
  exists g, tail, count. repeat (split; [done|]).
  intros j Hj Hgone.
  assert (Hgj : g ≤ j).
  { destruct (decide (g ≤ j)) as [|Hlt]; [done|].
    specialize (Hbefore j ltac:(lia)). congruence. }
  assert (Htail : tail = []).
  { destruct Hcases as [[_ ->]|(-> & Hten & _)]; [done|].
    assert (j = 10) as -> by lia. congruence. }
  split; [done|]. split; [done|]. subst tail. rewrite app_nil_r.
  intros pid Hin. apply elem_of_app in Hin as [Hin|Hin].
  - unfold entry_events in Hin.
    repeat (apply elem_of_cons in Hin as [Hin|Hin]; [discriminate|]).
    by apply elem_of_nil in Hin.
  - by apply kill_not_in_polls in Hin.
Qed.

(** C7: a launcher that is not running makes [force_shutdown] a no-op
    that succeeds; a launcher that outlives both poll windows makes it
    log an error and return; and what it raises was raised by the
    graceful stop request. *)
Theorem force_shutdown_raises_only_from_stop_request (self : wineuplay) (w : World) :
  (running_at w (lookups w) = false →
     force_shutdown self w
     = (Ok tt, after w 1 [EvGetPid UPLAY_PATTERN (pids w (lookups w))]))
  ∧ ((∀ j, j ≤ 16 → running_at w (lookups w + j) = true) →
     outcome w EvShutdown = None →
     ∃ count,
       force_shutdown self w
       = (Ok tt, after w count
                   (entry_events w ++ poll_events (pids w) (S (lookups w)) 10
                      ++ escalation_events w
                      ++ poll_events (pids w) (lookups w + 12) 5 ++ [FAILED_LOG])))
  ∧ (∀ e, fst (force_shutdown self w) = Raise e →
       running_at w (lookups w) = true
       ∧ outcome w EvShutdown = Some e
       ∧ snd (force_shutdown self w) = after w 1 (entry_events w)).
Proof.
  split; [|split].
  - intros Hidle. unfold force_shutdown, bind.
    by rewrite is_running_run, Hidle.
  - intros Hall Hstop.
    assert (Hentry : running_at w (lookups w) = true).
    { specialize (Hall 0 ltac:(lia)). by rewrite Nat.add_0_r in Hall. }
    destruct (force_shutdown_run self w Hentry Hstop)
      as (g & tail & count & Hrun & Hg & Hbefore & Hcases).
    destruct Hcases as [[Hgone _]|(-> & _ & f & final & -> & Hf & _ & Hcases)].
    { specialize (Hall g ltac:(lia)). congruence. }
    destruct Hcases as [[Hgone _]|(-> & _ & ->)].
    { specialize (Hall (11 + f) ltac:(lia)).
      replace (lookups w + (11 + f)) with (lookups w + 11 + f) in Hall by lia.
      congruence. }
    exists count. by rewrite Hrun.
  - intros e Hraise.
    destruct (running_at w (lookups w)) eqn:Hentry; cycle 1.
    { unfold force_shutdown, bind in Hraise.
      rewrite is_running_run, Hentry in Hraise. discriminate. }
    destruct (outcome w EvShutdown) as [e'|] eqn:Hstop; cycle 1.
    { destruct (force_shutdown_run self w Hentry Hstop) as (g & tail & count & Hrun & _).
      rewrite Hrun in Hraise. discriminate. }
    assert (Hrun : force_shutdown self w = (Raise e', after w 1 (entry_events w))).
    { unfold force_shutdown.
      unfold bind at 1. rewrite is_running_run, Hentry.
      unfold bind at 1. rewrite logger_run, after_after.
      unfold bind at 1. rewrite (act_run_raise _ e') by done.
      by rewrite after_after. }
    rewrite Hrun in *. simpl in Hraise. injection Hraise as ->. done.
Qed.

(** ** The install pipeline *)

(** A downloader that fetches at once and then runs the continuation it
    was given. *)
Definition direct_downloader (url dest : string) (on_done : M unit) : M unit :=
  do_ act (EvDownload url dest);
  on_done.

Section Install.

Variable host : Host.
Variable self : wineuplay.

Let dx2010_path : string := Py.os_path_join (TMP_PATH host) ["dxsetup.zip"].
Let installer_path : string := Py.os_path_join (TMP_PATH host) ["UplayInstaller.exe"].

(** The three installer runs of the continuation, for a given prefix. *)
Definition auxiliary_install (prefix : string) : Event :=
  EvWineexec dx2010_path "/silent" prefix (get_executable self).
Definition components_install (prefix : string) : Event :=
  EvWinetricks "corefonts d3dcompiler_43 gdiplus" prefix (get_executable self).
Definition product_install (prefix : string) : Event :=
  EvWineexec installer_path "/S" prefix (get_executable self).

(** The two downloads [install] starts with. *)
Definition download_events : list Event :=
  [EvDownloadExtract DX2010_INSTALLER_URL dx2010_path;
   EvDownload UPLAY_INSTALLER_URL installer_path].

Lemma on_uplay_downloaded_run (callback : option (M unit)) (w w1 : World)
    (prefix : string) :
  get_or_create_default_prefix host self None w = (Ok prefix, w1) →
  on_uplay_downloaded host self callback w
  = match outcome w1 (auxiliary_install prefix) with
    | Some e => (Raise e, records [auxiliary_install prefix] w1)
    | None =>
        match outcome w1 (components_install prefix) with
        | Some e =>
            (Raise e, records [auxiliary_install prefix; components_install prefix] w1)
        | None =>
            match outcome w1 (product_install prefix) with
            | Some e =>
                (Raise e, records [auxiliary_install prefix; components_install prefix;
                                   product_install prefix] w1)
            | None =>
                match callback with
                | Some run_callback => run_callback
                | None => ret tt
                end (records [auxiliary_install prefix; components_install prefix;
                              product_install prefix] w1)
            end
        end
    end.
Proof.
  intros Hprefix. unfold on_uplay_downloaded.
  unfold bind at 1. rewrite Hprefix.
  fold dx2010_path installer_path.
  fold (auxiliary_install prefix) (components_install prefix) (product_install prefix).
  unfold bind at 1. unfold act at 1.
  destruct (outcome w1 (auxiliary_install prefix)); [done|].
  unfold bind at 1. unfold act at 1. frame.
  destruct (outcome w1 (components_install prefix)); [by norm_trace|].
  unfold bind at 1. unfold act at 1. frame.
  destruct (outcome w1 (product_install prefix)); by norm_trace.
Qed.

(** C2: with both downloads done, the continuation runs the auxiliary
    DirectX install, the winetricks components, the product installer
    and the completion callback, in this order; when the components
    step raises, the exception is the result of [install], the product
    installer is not run and the callback is not invoked. *)
Theorem install_steps_in_order (w w1 : World) (prefix : string) :
  outcome w (EvDownloadExtract DX2010_INSTALLER_URL dx2010_path) = None →
  outcome w (EvDownload UPLAY_INSTALLER_URL installer_path) = None →
  get_or_create_default_prefix host self None (records download_events w)
  = (Ok prefix, w1) →
  outcome w1 (auxiliary_install prefix) = None →
  (∀ callback : M unit,
     outcome w1 (components_install prefix) = None →
     outcome w1 (product_install prefix) = None →
     install host self direct_downloader (Some callback) w
     = callback (records [auxiliary_install prefix; components_install prefix;
                          product_install prefix] w1))
  ∧ (∀ (callback : option (M unit)) (e : exn),
       outcome w1 (components_install prefix) = Some e →
       install host self direct_downloader callback w
       = (Raise e,
          records [auxiliary_install prefix; components_install prefix] w1)).
Proof.
  intros Hdx Hdl Hprefix Haux.
  assert (Hstart : ∀ callback,
            install host self direct_downloader callback w
            = on_uplay_downloaded host self callback (records download_events w)).
  { intros callback. unfold install, direct_downloader.
    fold dx2010_path installer_path.
    unfold bind at 1. rewrite act_run_ok by done.
    unfold bind at 1. rewrite act_run_ok by done.
    by rewrite after_after. }
  split.
  - intros callback Hcomp Hprod.
    rewrite Hstart, (on_uplay_downloaded_run _ _ _ _ Hprefix).
    by rewrite Haux, Hcomp, Hprod.
  - intros callback e Hcomp.
    rewrite Hstart, (on_uplay_downloaded_run _ _ _ _ Hprefix).
    by rewrite Haux, Hcomp.
Qed.

End Install.

(** ** The registry readers *)

Section Registry.

Variable host : Host.
Variable self : wineuplay.

Lemma WineRegistry_open_run reg w :
  WineRegistry_open reg w
  = (Ok (mkRegistry reg (default ∅ (hives w !! reg))), records [EvOpenRegistry reg] w).
Proof. reflexivity. Qed.

Lemma query_run registry path name w :
  query registry path name w
  = (Ok (keys registry !! path ≫= (fun key => key !! name)),
     records [EvQuery (reg_filename registry) path (Some name)] w).
Proof. reflexivity. Qed.

Lemma query_subkeys_run registry path w :
  query_subkeys registry path w
  = (Ok (keys registry !! path),
     records [EvQuery (reg_filename registry) path None] w).
Proof. reflexivity. Qed.

(** C4, as the code has it: once the prefix is known, a missing
    [user.reg] makes [get_game_id_list] return [None] after the one
    existence probe, without opening or querying a registry and without
    raising; an existing [user.reg] that holds the game starter key
    makes it return the names below that key. *)
Theorem get_game_id_list_amended (w w1 : World) (prefix : string) :
  configured_prefix host self w = (Ok prefix, w1) →
  let user_reg := Py.os_path_join prefix ["user.reg"] in
  (user_reg ∉ fs w1 →
     get_game_id_list host self w
     = (Ok None, records [EvPathExists user_reg false] w1))
  ∧ (∀ subkeys : gmap string string,
       user_reg ∈ fs w1 →
       default ∅ (hives w1 !! user_reg) !! GAME_STARTER_KEY = Some subkeys →
       get_game_id_list host self w
       = (Ok (Some (dom subkeys)),
          records [EvPathExists user_reg true; EvOpenRegistry user_reg;
                   EvQuery user_reg GAME_STARTER_KEY None] w1)).
Proof.
  intros Hprefix. cbv zeta.
  assert (Hstart : get_game_id_list host self w
            = (do found <- path_exists (Py.os_path_join prefix ["user.reg"]);
               if found then
                 do registry <- WineRegistry_open (Py.os_path_join prefix ["user.reg"]);
                 do apps <- query_subkeys registry GAME_STARTER_KEY;
                 match apps with
                 | Some subkeys => ret (Some (dom subkeys))
                 | None => raise (AttributeError "keys")
                 end
               else ret None) w1).
  { unfold get_game_id_list. unfold bind at 1. by rewrite Hprefix. }
  split.
  - intros Habsent. rewrite Hstart. unfold bind at 1.
    by rewrite path_exists_run, (bool_decide_eq_false_2 _ Habsent).
  - intros subkeys Hfound Hkey. rewrite Hstart. unfold bind at 1.
    rewrite path_exists_run, (bool_decide_eq_true_2 _ Hfound).
    unfold bind at 1. rewrite WineRegistry_open_run.
    unfold bind at 1. rewrite query_subkeys_run. cbn [keys reg_filename]. frame.
    rewrite Hkey. unfold ret. by norm_trace.
Qed.

(** C6: once the prefix is known, [get_game_path_from_game_id] reads
    [InstallDir] below the [Wow6432] key exactly when [wine_arch()] is
    ["win64"], and below the direct key otherwise; a value that is
    absent or empty gives [None] after a warning, without raising.  So
    a [system.reg] that holds the 64-bit key only gives [None] under a
    32-bit architecture. *)
Theorem get_game_path_key_selection (game_id : string) (w w1 : World)
    (prefix : string) :
  configured_prefix host self w = (Ok prefix, w1) →
  let system_reg := Py.os_path_join prefix ["system.reg"] in
  let key := if String.eqb (wine_arch self) "win64"
             then INSTALLS_KEY_WOW +:+ game_id else INSTALLS_KEY +:+ game_id in
  let value := registry_value w1 system_reg key "InstallDir" in
  let checked := [EvOpenRegistry system_reg;
                  EvLog Debug "Checking for game %s in the Wine registry" [game_id];
                  EvQuery system_reg key (Some "InstallDir")] in
  (Py.truthy_opt value = true →
     get_game_path_from_game_id host self game_id w
     = (Ok value,
        records (checked ++ [EvLog Debug "Game found in %s" [or_empty value]]) w1))
  ∧ (Py.truthy_opt value = false →
       get_game_path_from_game_id host self game_id w
       = (Ok None,
          records (checked ++ [EvLog Warning "Data path for game %s not found."
                                 [game_id]]) w1))
  ∧ (∀ install_dir : string,
       wine_arch self ≠ "win64" →
       registry_value w1 system_reg (INSTALLS_KEY_WOW +:+ game_id) "InstallDir"
       = Some install_dir →
       registry_value w1 system_reg (INSTALLS_KEY +:+ game_id) "InstallDir" = None →
       get_game_path_from_game_id host self game_id w
       = (Ok None,
          records [EvOpenRegistry system_reg;
                   EvLog Debug "Checking for game %s in the Wine registry" [game_id];
                   EvQuery system_reg (INSTALLS_KEY +:+ game_id) (Some "InstallDir");
                   EvLog Warning "Data path for game %s not found." [game_id]] w1)).
Proof.
  intros Hprefix system_reg key value checked.
  assert (Hrun : get_game_path_from_game_id host self game_id w
                 = if Py.truthy_opt value
                   then (Ok value,
                         records (checked ++ [EvLog Debug "Game found in %s"
                                                [or_empty value]]) w1)
                   else (Ok None,
                         records (checked ++ [EvLog Warning
                                                "Data path for game %s not found."
                                                [game_id]]) w1)).
  { unfold get_game_path_from_game_id.
    unfold bind at 1. rewrite Hprefix. fold system_reg.
    unfold bind at 1. rewrite WineRegistry_open_run.
    unfold bind at 1. rewrite logger_run, <- records_after.
    unfold Py.percent_s.
    assert (Hquery :
      (if String.eqb (wine_arch self) "win64"
       then query (mkRegistry system_reg (default ∅ (hives w1 !! system_reg)))
              (INSTALLS_KEY_WOW +:+ game_id) "InstallDir"
       else query (mkRegistry system_reg (default ∅ (hives w1 !! system_reg)))
              (INSTALLS_KEY +:+ game_id) "InstallDir")
      = query (mkRegistry system_reg (default ∅ (hives w1 !! system_reg)))
          key "InstallDir").
    { unfold key. by destruct (String.eqb _ _). }
    frame. rewrite Hquery.
    unfold bind at 1. rewrite query_run. cbn [keys reg_filename].
    fold (registry_value w1 system_reg key "InstallDir"). fold value.
    destruct (Py.truthy_opt value).
    - unfold bind, ret. rewrite logger_run, <- records_after. by norm_trace.
    - unfold bind, ret. rewrite logger_run, <- records_after. by norm_trace. }
  split; [|split].
  - intros Htrue. by rewrite Hrun, Htrue.
  - intros Hfalse. by rewrite Hrun, Hfalse.
  - intros install_dir Harch Hwow Hdirect. rewrite Hrun.
    unfold checked, value, key.
    apply String.eqb_neq in Harch. rewrite Harch, Hdirect. reflexivity.
Qed.

End Registry.

(** ** The command builders *)

Definition MISSING_GAME_ID : exn :=
  ValueError "Missing game ID in wineuplay.install_game".

Section Commands.

Variable host : Host.
Variable self : wineuplay.

Lemma install_game_empty (w : World) :
  install_game host self "" w = (Raise MISSING_GAME_ID, w).
Proof. reflexivity. Qed.

(** C8: an empty game id makes [install_game] raise at once, before the
    launch arguments are built and with nothing executed; any other id
    makes it build the launch arguments, append the one argument
    [uplay://install/<id>] and execute that command. *)
Theorem install_game_requires_id (w : World) :
  install_game host self "" w = (Raise MISSING_GAME_ID, w)
  ∧ (∀ (game_id : string) (args : list string) (w1 : World),
       game_id ≠ "" →
       launch_args host self w = (Ok args, w1) →
       let command :=
         EvExecute (args ++ ["uplay://install/" +:+ game_id]) (get_env self None) in
       install_game host self game_id w
       = (match outcome w1 command with
          | Some e => Raise e
          | None => Ok tt
          end, records [command] w1))
  ∧ (∀ (game_id : string) (e : exn) (w1 : World),
       game_id ≠ "" →
       launch_args host self w = (Raise e, w1) →
       install_game host self game_id w = (Raise e, w1)).
Proof.
  split; [apply install_game_empty|]. split.
  - intros game_id args w1 Hid Hargs. cbv zeta.
    destruct game_id as [|c rest]; [done|].
    unfold install_game. cbn [Py.truthy negb].
    unfold bind. rewrite Hargs. unfold act, Py.percent_s.
    by destruct (outcome w1 _).
  - intros game_id e w1 Hid Hargs.
    destruct game_id as [|c rest]; [done|].
    unfold install_game. cbn [Py.truthy negb].
    unfold bind. by rewrite Hargs.
Qed.

(** C10: the launch and the uninstall commands take an empty game id.
    With no game id configured, [get_command] (launch not suppressed)
    appends [uplay://launch/] and [remove_game_data] (no id given)
    starts a command that ends in [uplay://uninstall/]; no
    missing-identifier error is raised, unlike in [install_game]. *)
Theorem launch_and_uninstall_accept_empty_id (w : World) :
  game_id self = "" →
  (∀ (args : list string) (w1 : World),
     default false (cfg_nolaunch (game_config self)) = false →
     launch_args host self w = (Ok args, w1) →
     get_command host self w = (Ok (args ++ ["uplay://launch/"]), w1))
  ∧ (∀ (args : list string) (w1 w2 w3 : World),
       is_installed host self w = (Ok true, w1) →
       force_shutdown self w1 = (Ok tt, w2) →
       launch_args host self w2 = (Ok args, w3) →
       let command :=
         EvMonitoredStart (args ++ ["uplay://uninstall/"]) (get_env self (Some false)) in
       remove_game_data host self None w
       = (match outcome w3 command with
          | Some e => Raise e
          | None => Ok None
          end, records [command] w3))
  ∧ install_game host self "" w = (Raise MISSING_GAME_ID, w).
Proof.
  intros Hid. split; [|split; [|apply install_game_empty]].
  - intros args w1 Hlaunch Hargs. unfold get_command.
    unfold bind. rewrite Hargs, Hlaunch, Hid. reflexivity.
  - intros args w1 w2 w3 Hinst Hstop Hargs. cbv zeta.
    unfold remove_game_data.
    unfold bind at 1. rewrite Hinst. cbn [negb].
    unfold bind at 1. rewrite Hstop.
    unfold bind at 1. rewrite Hargs.
    cbn [Py.truthy_opt]. rewrite Hid.
    unfold bind, act, ret, Py.percent_s.
    by destruct (outcome w3 _).
Qed.

End Commands.

(** ** Concrete runs *)

Module Fixtures.

(** A host whose home is [/home/u] and whose helpers leave paths alone. *)
Definition host0 : Host :=
  mkHost (fun path => if String.eqb path "~/.wine" then "/home/u/.wine" else path)
         (fun path => path)
         (fun args => if Py.truthy args then [args] else [])
         (fun _ path => path)
         (fun _ path => path)
         "/tmp"
         "win64".

Definition defaults : gmap string string :=
  <["default_win64_prefix" := "/r/prefix64"]>
    (<["default_win32_prefix" := "/r/prefix"]> ∅).

Definition no_game : GameConfig := mkGameConfig None None None None.

(** Both default prefixes configured, nothing else. *)
Definition plain : wineuplay :=
  mkRunner defaults no_game "wine" "win32" (fun _ => []) true.

(** A custom launcher location on top of [plain]. *)
Definition custom : wineuplay :=
  mkRunner (<["uplay_path" := "/opt/uplay"]> defaults) no_game
           "wine" "win32" (fun _ => []) true.

(** The prefix given by the game configuration. *)
Definition pinned : wineuplay :=
  mkRunner defaults (mkGameConfig None (Some "/p") None None)
           "wine" "win32" (fun _ => []) true.

Definition exe32 : string :=
  "/r/prefix/drive_c/Program Files/Ubisoft/Ubisoft Game Launcher/upc.exe".
Definition exe64 : string :=
  "/r/prefix64/drive_c/Program Files/Ubisoft/Ubisoft Game Launcher/upc.exe".

Definition quiet (paths : gset string) (registries : gmap string Hive) : World :=
  mkWorld paths registries (fun _ => None) 0 (fun _ => None) [].

(** The win64 prefix exists and is empty, the launcher is in the win32
    prefix. *)
Definition only_win32 : World := quiet {[ "/r/prefix64"; exe32 ]} ∅.

(** The launcher is in the win64 prefix and is not running. *)
Definition installed : World := quiet {[ "/r/prefix64"; exe64 ]} ∅.

Definition custom_world : World := quiet {[ "/opt/uplay/Uplay.exe" ]} ∅.

(** Nothing on disk. *)
Definition bare : World := quiet ∅ ∅.

(** A [user.reg] without the game starter key. *)
Definition no_subtree : World := quiet {[ "/p/user.reg" ]} {[ "/p/user.reg" := ∅ ]}.

(** A [user.reg] with two games. *)
Definition two_games : World :=
  quiet {[ "/p/user.reg" ]}
        {[ "/p/user.reg" :=
             {[ GAME_STARTER_KEY := {[ "46" := "a"; "635" := "b" ]} ]} ]}.

(** A [system.reg] that knows game 46 under the 64-bit key only. *)
Definition wow_only : World :=
  quiet ∅ {[ "/p/system.reg" :=
               {[ (INSTALLS_KEY_WOW +:+ "46") := {[ "InstallDir" := "C:\Games\46" ]} ]} ]}.

(** The launcher is in the win32 prefix only; the win64 prefix exists,
    without a launcher, and its [user.reg] holds an open command
    without quotes. *)
Definition unquoted_win64 : World :=
  quiet {[ "/r/prefix64"; "/r/prefix64/user.reg"; exe32 ]}
        {[ "/r/prefix64/user.reg" :=
             {[ OPEN_COMMAND_KEY := {[ "default" := "C:\Uplay\upc.exe %1" ]} ]} ]}.

(** An open command without quotes in the [user.reg] of the win64 prefix. *)
Definition unquoted : WineRegistry :=
  mkRegistry "/r/prefix64/user.reg"
             {[ OPEN_COMMAND_KEY := {[ "default" := "C:\Uplay\upc.exe %1" ]} ]}.

(** The launcher answers the entry lookup and two polls, then is gone. *)
Definition gone_at_poll_3 : World :=
  mkWorld ∅ ∅ (fun n => if Nat.ltb n 3 then Some "4711" else None) 0 (fun _ => None) [].

(** The launcher never goes away. *)
Definition immortal : World :=
  mkWorld ∅ ∅ (fun _ => Some "4711") 0 (fun _ => None) [].

(** The launcher is running and the stop request raises. *)
Definition stop_fails : World :=
  mkWorld ∅ ∅ (fun _ => Some "4711") 0
          (fun ev => match ev with
                     | EvShutdown => Some (RuntimeError "shutdown")
                     | _ => None
                     end) [].

(** The default prefix exists; winetricks raises. *)
Definition winetricks_fails : World :=
  mkWorld {[ "/r/prefix64" ]} ∅ (fun _ => None) 0
          (fun ev => match ev with
                     | EvWinetricks _ _ _ => Some (ExternalError "winetricks")
                     | _ => None
                     end) [].

End Fixtures.

Import Fixtures.

(** Reads a membership in a concrete set of paths off its computation. *)
Ltac in_fs := compute_done.
Ltac not_in_fs := compute_done.

Example search_reaches_win32 :
  get_uplay_path host0 plain only_win32
  = (Ok exe32,
     records
       (map (fun path => EvPathExists path false)
            (candidate_paths "/r/prefix64"
               ++ [ "/r/prefix/drive_c/Program Files (x86)/Ubisoft/Ubisoft Game Launcher/                upc.exe" ])
          ++ [EvPathExists exe32 true])
       only_win32).
Proof. vm_compute. reflexivity. Qed.

Example gone_at_poll_3_trace :
  force_shutdown plain gone_at_poll_3
  = (Ok tt,
     after gone_at_poll_3 4
       [EvGetPid UPLAY_PATTERN (Some "4711");
        EvLog Info "Waiting for Uplay to shutdown..." [];
        EvShutdown;
        EvSleep 1; EvGetPid UPLAY_PATTERN (Some "4711");
        EvSleep 1; EvGetPid UPLAY_PATTERN (Some "4711");
        EvSleep 1; EvGetPid UPLAY_PATTERN None]).
Proof. vm_compute. reflexivity. Qed.

(** The number of sleeps among some events. *)
Fixpoint sleeps (evs : list Event) : nat :=
  match evs with
  | [] => 0
  | EvSleep _ :: evs' => S (sleeps evs')
  | _ :: evs' => sleeps evs'
  end.

Example immortal_is_logged :
  fst (force_shutdown plain immortal) = Ok tt
  ∧ last (trace (snd (force_shutdown plain immortal))) = Some FAILED_LOG
  ∧ sleeps (trace (snd (force_shutdown plain immortal))) = 15.
Proof. vm_compute. done. Qed.

(** C1: a failing input.  The launcher is under the win32 default prefix
    only; the win64 default prefix exists, holds no launcher, and its
    [user.reg] holds an open command without double quotes, which names
    no path.  The search does not go on to the win32 prefix: it raises
    [IndexError] out of the parse of that command, right after the
    registry query. *)
Theorem get_uplay_path_unquoted_win64 :
  "/r/prefix64" ∈ fs unquoted_win64
  ∧ exe32 ∈ fs unquoted_win64
  ∧ (∀ place, place ∈ candidate_paths "/r/prefix64" → place ∈ fs unquoted_win64 →
              place = "/r/prefix64/user.reg")
  ∧ registry_value unquoted_win64 "/r/prefix64/user.reg" OPEN_COMMAND_KEY "default"
    = Some "C:\Uplay\upc.exe %1"
  ∧ candidate_hit host0 unquoted_win64 "/r/prefix" = Ok (Some exe32)
  ∧ get_uplay_path host0 plain unquoted_win64
    = (Raise IndexError,
       records
         [EvPathExists
            "/r/prefix64/drive_c/Program Files (x86)/Ubisoft/Ubisoft Game Launcher/                upc.exe"
            false;
          EvPathExists exe64 false;
          EvPathExists "/r/prefix64/user.reg" true;
          EvOpenRegistry "/r/prefix64/user.reg";
          EvQuery "/r/prefix64/user.reg" OPEN_COMMAND_KEY (Some "default")]
         unquoted_win64).
Proof.
  split; [in_fs|]. split; [in_fs|]. split; [|split; [|split]].
  - intros place Hin Hexists.
    apply elem_of_cons in Hin as [->|Hin].
    { exfalso. revert Hexists. change (?p ∈ ?s → False) with (p ∉ s). not_in_fs. }
    apply elem_of_cons in Hin as [->|Hin].
    { exfalso. revert Hexists. change (?p ∈ ?s → False) with (p ∉ s). not_in_fs. }
    apply elem_of_cons in Hin as [->|Hin]; [reflexivity|].
    by apply elem_of_nil in Hin.
  - vm_compute. reflexivity.
  - vm_compute. reflexivity.
  - vm_compute. reflexivity.
Qed.

(** A failing winetricks ends the install after two installer runs. *)
Lemma install_steps_in_order_witness :
  install host0 plain direct_downloader (Some (emit (EvLog Info "installed" [])))
    winetricks_fails
  = (Raise (ExternalError "winetricks"),
     records [auxiliary_install host0 plain "/r/prefix64";
              components_install plain "/r/prefix64"]
       (records (download_events host0 ++ [EvPathExists "/r/prefix64" true])
          winetricks_fails)).
Proof.
  apply (install_steps_in_order host0 plain winetricks_fails
           (records (download_events host0 ++ [EvPathExists "/r/prefix64" true])
              winetricks_fails) "/r/prefix64").
  - reflexivity.
  - reflexivity.
  - vm_compute. reflexivity.
  - reflexivity.
  - reflexivity.
Defined.

(** Gone at the third graceful poll: three polls at most, and no kill. *)
Lemma force_shutdown_poll_bounds_witness :
  ∃ (g : nat) (count : nat),
    force_shutdown plain gone_at_poll_3
    = (Ok tt, after gone_at_poll_3 count
                (entry_events gone_at_poll_3
                   ++ poll_events (pids gone_at_poll_3) 1 g ++ []))
    ∧ g ≤ 3.
Proof.
  destruct (force_shutdown_poll_bounds plain gone_at_poll_3 eq_refl eq_refl)
    as (g & tail & count & Hrun & _ & _ & _ & Hgone).
  destruct (Hgone 3) as (Hg & -> & _); [lia|reflexivity|].
  by exists g, count.
Defined.

(** C4 as stated fails: with the prefix pinned to [/p] and no
    [/p/user.reg] on disk, the function returns [None], not an empty
    collection. *)
Lemma get_game_id_list_absent_hive_counterexample :
  ("/p/user.reg" ∉ fs bare)
  ∧ get_game_id_list host0 pinned bare
    = (Ok None, records [EvPathExists "/p/user.reg" false] bare)
  ∧ fst (get_game_id_list host0 pinned bare) ≠ Ok (Some ∅).
Proof.
  split; [not_in_fs|]. split; [vm_compute; reflexivity|].
  vm_compute. discriminate.
Qed.

(** With the file on disk and the key missing, [apps] is [None] and
    [apps.keys()] raises. *)
Example get_game_id_list_missing_subtree :
  fst (get_game_id_list host0 pinned no_subtree) = Raise (AttributeError "keys").
Proof. vm_compute. reflexivity. Qed.

Lemma get_game_id_list_amended_witness :
  get_game_id_list host0 pinned two_games
  = (Ok (Some (dom ({[ "46" := "a"; "635" := "b" ]} : gmap string string))),
     records [EvPathExists "/p/user.reg" true; EvOpenRegistry "/p/user.reg";
              EvQuery "/p/user.reg" GAME_STARTER_KEY None] two_games).
Proof.
  apply (proj2 (get_game_id_list_amended host0 pinned two_games two_games "/p" eq_refl)).
  - in_fs.
  - vm_compute. reflexivity.
Defined.

Lemma custom_location_wins_witness :
  get_uplay_path host0 custom custom_world
  = (Ok "/opt/uplay/Uplay.exe",
     records [EvPathExists "/opt/uplay/Uplay.exe" true] custom_world).
Proof.
  apply (custom_location_wins host0 custom custom_world "/opt/uplay").
  - vm_compute. reflexivity.
  - discriminate.
  - in_fs.
Defined.

(** Game 46 is known under the 64-bit key only; the runner is 32-bit. *)
Lemma get_game_path_key_selection_witness :
  get_game_path_from_game_id host0 pinned "46" wow_only
  = (Ok None,
     records [EvOpenRegistry "/p/system.reg";
              EvLog Debug "Checking for game %s in the Wine registry" ["46"];
              EvQuery "/p/system.reg" (INSTALLS_KEY +:+ "46") (Some "InstallDir");
              EvLog Warning "Data path for game %s not found." ["46"]] wow_only).
Proof.
  apply (proj2 (proj2 (get_game_path_key_selection host0 pinned "46" wow_only wow_only
                         "/p" eq_refl)) "C:\Games\46").
  - discriminate.
  - vm_compute. reflexivity.
  - vm_compute. reflexivity.
Defined.

(** A stop request that raises is what [force_shutdown] raises. *)
Lemma force_shutdown_raises_only_from_stop_request_witness :
  outcome stop_fails EvShutdown = Some (RuntimeError "shutdown")
  ∧ snd (force_shutdown plain stop_fails) = after stop_fails 1 (entry_events stop_fails).
Proof.
  destruct (proj2 (proj2 (force_shutdown_raises_only_from_stop_request plain stop_fails))
              (RuntimeError "shutdown") eq_refl) as (_ & Hstop & Hworld).
  by split.
Defined.

Lemma install_game_requires_id_witness :
  install_game host0 plain "46" installed
  = (Ok tt,
     records [EvExecute ["wine"; exe64; "uplay://install/46"] []]
       (snd (launch_args host0 plain installed))).
Proof.
  apply (proj1 (proj2 (install_game_requires_id host0 plain installed))
           "46" ["wine"; exe64] (snd (launch_args host0 plain installed))).
  - discriminate.
  - vm_compute. reflexivity.
Defined.

Lemma get_open_command_not_total_witness :
  fst (get_open_command unquoted bare) = Raise IndexError.
Proof.
  apply (proj1 (get_open_command_not_total unquoted bare) "C:\Uplay\upc.exe %1").
  - vm_compute. reflexivity.
  - discriminate.
  - reflexivity.
Defined.

Lemma launch_and_uninstall_accept_empty_id_witness :
  get_command host0 plain installed
  = (Ok ["wine"; exe64; "uplay://launch/"], snd (launch_args host0 plain installed))
  ∧ fst (remove_game_data host0 plain None installed) = Ok None
  ∧ last (trace (snd (remove_game_data host0 plain None installed)))
    = Some (EvMonitoredStart ["wine"; exe64; "uplay://uninstall/"] []).
Proof.
  destruct (launch_and_uninstall_accept_empty_id host0 plain installed eq_refl)
    as (Hlaunch & Hremove & _).
  split.
  - apply (Hlaunch ["wine"; exe64]); [reflexivity|]. vm_compute. reflexivity.
  - rewrite (Hremove ["wine"; exe64]
               (snd (is_installed host0 plain installed))
               (snd (force_shutdown plain (snd (is_installed host0 plain installed))))
               (snd (launch_args host0 plain
                       (snd (force_shutdown plain
                               (snd (is_installed host0 plain installed))))))).
    + vm_compute. done.
    + vm_compute. reflexivity.
    + vm_compute. reflexivity.
    + vm_compute. reflexivity.
Defined.

(** * Further properties of the runner *)

(** ** The default prefix *)

(** The architecture [get_or_create_default_prefix] settles on. *)
Definition effective_arch (host : Host) (arch : option string) : string :=
  if negb (Py.truthy_opt arch) || String.eqb (or_empty arch) "auto"
  then WINE_DEFAULT_ARCH host else or_empty arch.

(** The key of [runner_config] that holds the default prefix of [arch]. *)
Definition default_prefix_key (arch : string) : string :=
  "default_" +:+ arch +:+ "_prefix".

(** *** What [os.makedirs] does *)

Lemma append_length_sum (a b : string) :
  String.length (a +:+ b) = String.length a + String.length b.
Proof. induction a as [|c a IH]; simpl; [done|]. by rewrite IH. Qed.

Lemma rstrip_shorter chars s : String.length (Py.rstrip chars s) ≤ String.length s.
Proof.
  induction s as [|c s IH]; simpl; [done|].
  destruct (Py.rstrip chars s); [destruct (Py.mem c chars)|]; simpl in *; lia.
Qed.

Lemma head_upto_sep_empty p :
  Py.head_upto_sep p = "" ↔ Py.contains Py.slash p = false.
Proof.
  induction p as [|c p IH]; simpl; [done|].
  destruct (Py.head_upto_sep p) as [|h hs].
  - rewrite (proj1 IH eq_refl), orb_false_r.
    destruct (Ascii.eqb c Py.slash); split; intros; (discriminate || reflexivity).
  - destruct (Py.contains Py.slash p).
    + rewrite orb_true_r. split; intros; discriminate.
    + pose proof (proj2 IH eq_refl). discriminate.
Qed.

(** A path is its head followed by its tail. *)
Lemma head_and_basename p : p = Py.head_upto_sep p +:+ PyOs.basename p.
Proof.
  induction p as [|c p IH]; simpl; [done|].
  destruct (Py.contains Py.slash p) eqn:Eslash.
  - destruct (Py.head_upto_sep p) as [|h hs] eqn:Ehead.
    + apply head_upto_sep_empty in Ehead. congruence.
    + rewrite IH at 1. reflexivity.
  - rewrite (proj2 (head_upto_sep_empty p) Eslash).
    destruct (Ascii.eqb c Py.slash) eqn:Ec; [|done].
    apply Ascii.eqb_eq in Ec as ->. reflexivity.
Qed.

Lemma dirname_shorter p :
  String.length (Py.os_path_dirname p) + String.length (PyOs.basename p)
  ≤ String.length p.
Proof.
  rewrite (head_and_basename p) at 3. rewrite append_length_sum.
  unfold Py.os_path_dirname.
  pose proof (rstrip_shorter [Py.slash] (Py.head_upto_sep p)) as Hstrip.
  destruct (Py.rstrip [Py.slash] (Py.head_upto_sep p)); simpl in *; lia.
Qed.




(** The split that [os.makedirs] works with: the tail is taken again
    from the head when it is empty. *)
Definition makedirs_split (name : string) : string * string :=
  let (head, tail) := PyOs.split name in
  if negb (Py.truthy tail) then PyOs.split head else (head, tail).

Lemma makedirs_split_shorter name :
  Py.truthy (snd (makedirs_split name)) = true →
  String.length (fst (makedirs_split name)) < String.length name.
Proof.
  unfold makedirs_split, PyOs.split.
  pose proof (dirname_shorter name) as H1.
  pose proof (dirname_shorter (Py.os_path_dirname name)) as H2.
  destruct (PyOs.basename name) as [|c t]; cbn [Py.truthy negb fst snd].
  - destruct (PyOs.basename (Py.os_path_dirname name)); [done|].
    simpl in *. lia.
  - simpl in *. lia.
Qed.

Lemma makedirs_run_step (fuel : nat) (disk : gset string) (name : string) :
  PyOs.makedirs_run (S fuel) disk name
  = let head := fst (makedirs_split name) in
    let tail := snd (makedirs_split name) in
    if Py.truthy head && Py.truthy tail && negb (bool_decide (head ∈ disk)) then
      match PyOs.makedirs_run fuel disk head with
      | (Some (FileExistsError _), disk') | (None, disk') =>
          if String.eqb tail "." then (None, disk') else PyOs.mkdir disk' name
      | (Some e, disk') => (Some e, disk')
      end
    else PyOs.mkdir disk name.
Proof.
  cbn [PyOs.makedirs_run]. unfold makedirs_split.
  destruct (PyOs.split name) as [head tail].
  by destruct (if negb (Py.truthy tail) then PyOs.split head else (head, tail)).
Qed.

(** [os.makedirs] removes nothing, and what it makes is no longer than
    the name it was given. *)
Lemma makedirs_run_made (fuel : nat) (disk : gset string) (name : string) :
  ∀ d, d ∈ snd (PyOs.makedirs_run fuel disk name) →
       d ∈ disk ∨ String.length d ≤ String.length name.
Proof.
  assert (Hmkdir : ∀ (disk disk' : gset string) name,
            (∀ x, x ∈ disk' → x ∈ disk ∨ String.length x ≤ String.length name) →
            ∀ d, d ∈ snd (PyOs.mkdir disk' name) →
                 d ∈ disk ∨ String.length d ≤ String.length name).
  { intros disk0 disk' name0 Hdisk' d. unfold PyOs.mkdir.
    repeat case_match; simpl; intros Hin; try by apply Hdisk'.
    apply elem_of_union in Hin as [Hin|Hin]; [|by apply Hdisk'].
    apply elem_of_singleton in Hin as ->. by right. }
  revert disk name. induction fuel as [|fuel IH]; intros disk name.
  { simpl. apply Hmkdir. by left. }
  rewrite makedirs_run_step. cbv zeta.
  destruct (Py.truthy (fst (makedirs_split name))
            && Py.truthy (snd (makedirs_split name))
            && negb (bool_decide (fst (makedirs_split name) ∈ disk))) eqn:Econd;
    [|apply Hmkdir; by left].
  apply andb_prop in Econd as [Econd _]. apply andb_prop in Econd as [_ Htail].
  pose proof (makedirs_split_shorter name Htail) as Hshort.
  specialize (IH disk (fst (makedirs_split name))).
  assert (Hinner : ∀ x, x ∈ snd (PyOs.makedirs_run fuel disk (fst (makedirs_split name))) →
            x ∈ disk ∨ String.length x ≤ String.length name).
  { intros x Hx. destruct (IH x Hx) as [?|?]; [by left|right; lia]. }
  destruct (PyOs.makedirs_run fuel disk (fst (makedirs_split name))) as [[e|] disk'];
    cbn [snd] in Hinner.
  - destruct e; try exact Hinner.
    destruct (String.eqb _ "."); [exact Hinner|by apply Hmkdir].
  - destruct (String.eqb _ "."); [exact Hinner|by apply Hmkdir].
Qed.

(** [os.makedirs] of a name that is not empty and not on disk goes
    through. *)
Lemma makedirs_run_ok (fuel : nat) (disk : gset string) (name : string) :
  name ≠ "" → name ∉ disk →
  fst (PyOs.makedirs_run fuel disk name) = None.
Proof.
  assert (Hmkdir : ∀ (disk' : gset string) name,
            name ≠ "" → name ∉ disk' → fst (PyOs.mkdir disk' name) = None).
  { intros disk' name0 Hne Hnew. unfold PyOs.mkdir.
    destruct name0; [done|]. cbn [Py.truthy negb].
    by rewrite (bool_decide_eq_false_2 _ Hnew). }
  revert disk name. induction fuel as [|fuel IH]; intros disk name Hne Hnew.
  { simpl. by apply Hmkdir. }
  rewrite makedirs_run_step. cbv zeta.
  destruct (Py.truthy (fst (makedirs_split name))
            && Py.truthy (snd (makedirs_split name))
            && negb (bool_decide (fst (makedirs_split name) ∈ disk))) eqn:Econd;
    [|by apply Hmkdir].
  apply andb_prop in Econd as [Econd Hmissing].
  apply andb_prop in Econd as [Hhead Htail].
  pose proof (makedirs_split_shorter name Htail) as Hshort.
  apply negb_true_iff, bool_decide_eq_false_1 in Hmissing.
  assert (Hhead' : fst (makedirs_split name) ≠ "").
  { intros Heq. rewrite Heq in Hhead. discriminate. }
  specialize (IH disk _ Hhead' Hmissing).
  pose proof (makedirs_run_made fuel disk (fst (makedirs_split name))) as Hmade.
  destruct (PyOs.makedirs_run fuel disk (fst (makedirs_split name))) as [[e|] disk'];
    [discriminate|].
  destruct (String.eqb _ "."); [done|].
  apply Hmkdir; [done|]. intros Hin.
  destruct (Hmade name Hin) as [?|?]; [done|lia].
Qed.

Lemma makedirs_run_grows (fuel : nat) (disk : gset string) (name : string) :
  disk ⊆ snd (PyOs.makedirs_run fuel disk name).
Proof.
  assert (Hmkdir : ∀ (disk0 disk' : gset string) name,
            disk0 ⊆ disk' → disk0 ⊆ snd (PyOs.mkdir disk' name)).
  { intros disk0 disk' name0 Hsub. unfold PyOs.mkdir.
    repeat case_match; simpl; try done.
    by apply union_subseteq_r'. }
  revert disk name. induction fuel as [|fuel IH]; intros disk name.
  { simpl. by apply Hmkdir. }
  rewrite makedirs_run_step. cbv zeta.
  destruct (_ && _ && _); [|by apply Hmkdir].
  specialize (IH disk (fst (makedirs_split name))).
  destruct (PyOs.makedirs_run fuel disk (fst (makedirs_split name))) as [[e|] disk'];
    cbn [snd] in IH.
  - destruct e; try exact IH.
    destruct (String.eqb _ "."); [exact IH|by apply Hmkdir].
  - destruct (String.eqb _ "."); [exact IH|by apply Hmkdir].
Qed.

(** The length of the name is fuel enough: more of it changes nothing. *)
Lemma makedirs_run_fuel (fuel fuel' : nat) (disk : gset string) (name : string) :
  String.length name ≤ fuel → String.length name ≤ fuel' →
  PyOs.makedirs_run fuel disk name = PyOs.makedirs_run fuel' disk name.
Proof.
  assert (Hstop : ∀ fuel0 name0,
            String.length name0 = 0 →
            PyOs.makedirs_run fuel0 disk name0 = PyOs.mkdir disk name0).
  { intros [|fuel0] name0 Hlen; [done|]. rewrite makedirs_run_step. cbv zeta.
    destruct (Py.truthy (snd (makedirs_split name0))) eqn:Etail.
    - pose proof (makedirs_split_shorter name0 Etail). lia.
    - by rewrite andb_false_r. }
  revert fuel' name. induction fuel as [|fuel IH]; intros fuel' name Hle Hle'.
  { rewrite !Hstop by lia. done. }
  destruct fuel' as [|fuel'].
  { rewrite !Hstop by lia. done. }
  rewrite !makedirs_run_step. cbv zeta.
  destruct (Py.truthy (fst (makedirs_split name))
            && Py.truthy (snd (makedirs_split name))
            && negb (bool_decide (fst (makedirs_split name) ∈ disk))) eqn:Econd;
    [|done].
  apply andb_prop in Econd as [Econd _]. apply andb_prop in Econd as [_ Htail].
  pose proof (makedirs_split_shorter name Htail) as Hshort.
  by rewrite (IH fuel' (fst (makedirs_split name))) by lia.
Qed.

Lemma makedirs_enough (fuel : nat) (disk : gset string) (name : string) :
  String.length name ≤ fuel →
  PyOs.makedirs_run fuel disk name = PyOs.makedirs disk name.
Proof. intros Hle. by apply makedirs_run_fuel. Qed.


Section DefaultPrefix.

Variable host : Host.
Variable self : wineuplay.

Lemma get_default_prefix_run (arch : string) (w : World) :
  get_default_prefix self arch w
  = match runner_config self !! default_prefix_key arch with
    | Some prefix => (Ok prefix, w)
    | None => (Raise (KeyError (default_prefix_key arch)), w)
    end.
Proof. unfold get_default_prefix, default_prefix_key. by case_match. Qed.

(** The run of [create_default_prefix], step by step. *)
Lemma create_default_prefix_run (prefix_dir : string) (arch : option string)
    (w : World) :
  let chosen := if Py.truthy_opt arch then or_empty arch else WINE_DEFAULT_ARCH host in
  let parent := Py.os_path_dirname prefix_dir in
  let found := bool_decide (parent ∈ fs w) in
  let announced :=
    [EvLog Debug "Creating default wineuplay prefix" []; EvPathExists parent found] in
  let creation := EvCreatePrefix prefix_dir chosen (get_executable self) in
  create_default_prefix host self prefix_dir arch w
  = if found then
      match outcome w creation with
      | Some e => (Raise e, records (announced ++ [creation]) w)
      | None => (Ok tt, touch prefix_dir (records (announced ++ [creation]) w))
      end
    else
      match outcome w (EvMakedirs parent) with
      | Some e => (Raise e, records (announced ++ [EvMakedirs parent]) w)
      | None =>
          match PyOs.makedirs (fs w) parent with
          | (Some e, disk) =>
              (Raise e, on_disk disk (records (announced ++ [EvMakedirs parent]) w))
          | (None, disk) =>
              match outcome w creation with
              | Some e =>
                  (Raise e,
                   on_disk disk
                     (records (announced ++ [EvMakedirs parent; creation]) w))
              | None =>
                  (Ok tt,
                   touch prefix_dir
                     (on_disk disk
                        (records (announced ++ [EvMakedirs parent; creation]) w)))
              end
          end
      end.
Proof.
  cbv zeta. unfold create_default_prefix, default_arch, create_prefix, os_makedirs.
  unfold bind at 1. rewrite logger_run, <- records_after.
  unfold bind at 1. rewrite path_exists_run. frame.
  destruct (bool_decide (Py.os_path_dirname prefix_dir ∈ fs w)); cbn [negb].
  - unfold bind, ret, act. frame.
    destruct (outcome w _);
      unfold touch, record, records; simpl; by rewrite <- ?app_assoc.
  - unfold bind, ret, act. frame.
    destruct (outcome w (EvMakedirs _));
      [unfold touch, record, records; simpl; by rewrite <- ?app_assoc|].
    cbn [fs record records].
    destruct (PyOs.makedirs (fs w) (Py.os_path_dirname prefix_dir)) as [[e|] disk];
      [unfold on_disk, record, records; simpl; by rewrite <- ?app_assoc|].
    cbn [outcome on_disk record records].
    destruct (outcome w (EvCreatePrefix _ _ _));
      unfold touch, on_disk, record, records; simpl; by rewrite <- ?app_assoc.
Qed.

(** X1: a default prefix that exists is returned after the one existence
    probe, and nothing is created; [None], the empty string and ["auto"]
    all stand for the default architecture. *)
Theorem default_prefix_existing (arch : option string) (w : World) (prefix : string) :
  runner_config self !! default_prefix_key (effective_arch host arch) = Some prefix →
  prefix ∈ fs w →
  get_or_create_default_prefix host self arch w
  = (Ok prefix, records [EvPathExists prefix true] w)
  ∧ effective_arch host None = WINE_DEFAULT_ARCH host
  ∧ effective_arch host (Some "") = WINE_DEFAULT_ARCH host
  ∧ effective_arch host (Some "auto") = WINE_DEFAULT_ARCH host.
Proof.
  intros Hkey Hfound. split; [|done].
  unfold get_or_create_default_prefix, default_arch.
  fold (effective_arch host arch).
  unfold bind at 1. rewrite get_default_prefix_run, Hkey.
  unfold bind at 1. rewrite path_exists_run, (bool_decide_eq_true_2 _ Hfound).
  reflexivity.
Qed.

Lemma chosen_arch_effective (arch : option string) :
  (if Py.truthy_opt (Some (effective_arch host arch))
   then or_empty (Some (effective_arch host arch))
   else WINE_DEFAULT_ARCH host)
  = effective_arch host arch.
Proof.
  unfold effective_arch.
  destruct arch as [[|c rest]|]; cbn [Py.truthy_opt Py.truthy negb orb or_empty default id];
    try (by destruct (WINE_DEFAULT_ARCH host)).
  change (or_empty (Some (String c rest))) with (String c rest).
  destruct (String.eqb (String c rest) "auto"); [by destruct (WINE_DEFAULT_ARCH host)|].
  reflexivity.
Qed.

(** The run of [get_or_create_default_prefix], step by step. *)
Lemma get_or_create_default_prefix_run (arch : option string) (w : World) :
  get_or_create_default_prefix host self arch w
  = match runner_config self !! default_prefix_key (effective_arch host arch) with
    | None => (Raise (KeyError (default_prefix_key (effective_arch host arch))), w)
    | Some prefix =>
        if bool_decide (prefix ∈ fs w)
        then (Ok prefix, records [EvPathExists prefix true] w)
        else
          match create_default_prefix host self prefix
                  (Some (effective_arch host arch))
                  (records [EvPathExists prefix false] w) with
          | (Ok _, w') => (Ok prefix, w')
          | (Raise e, w') => (Raise e, w')
          end
    end.
Proof.
  unfold get_or_create_default_prefix, default_arch.
  fold (effective_arch host arch).
  unfold bind at 1. rewrite get_default_prefix_run.
  destruct (runner_config self !! _) as [prefix|]; [|done].
  unfold bind at 1. rewrite path_exists_run.
  destruct (bool_decide (prefix ∈ fs w)); cbn [negb]; [done|].
  unfold bind, ret. by destruct (create_default_prefix _ _ _ _ _) as [[?|?] ?].
Qed.

(** A successful call leaves the prefix on disk. *)
Lemma get_or_create_default_prefix_exists (arch : option string) (w w1 : World)
    (prefix : string) :
  get_or_create_default_prefix host self arch w = (Ok prefix, w1) →
  runner_config self !! default_prefix_key (effective_arch host arch) = Some prefix
  ∧ prefix ∈ fs w1.
Proof.
  rewrite get_or_create_default_prefix_run.
  destruct (runner_config self !! _) as [prefix'|]; [|discriminate].
  destruct (bool_decide (prefix' ∈ fs w)) eqn:Efound.
  - intros [= <- <-]. split; [done|]. by apply bool_decide_eq_true_1 in Efound.
  - rewrite create_default_prefix_run. cbv zeta. frame.
    destruct (bool_decide (Py.os_path_dirname prefix' ∈ fs w)).
    + destruct (outcome w _); [discriminate|].
      intros [= <- <-]. split; [done|]. unfold touch; simpl.
      by apply elem_of_union_l, elem_of_singleton.
    + destruct (outcome w (EvMakedirs _)); [discriminate|].
      destruct (PyOs.makedirs (fs w) _) as [[e|] disk]; [discriminate|].
      destruct (outcome w _); [discriminate|].
      intros [= <- <-]. split; [done|]. unfold touch, on_disk; simpl.
      by apply elem_of_union_l, elem_of_singleton.
Qed.

(** X2: a default prefix that is missing is created.  The parent
    directory is probed; when it is missing, [os.makedirs] makes it
    together with every ancestor that is missing (the parent must then
    have a name, [os.makedirs] of the empty name raises); the prefix is
    initialised for the effective architecture.  Afterwards the disk
    holds the prefix and what [os.makedirs] left, which keeps all that
    was there and adds nothing longer than the parent; the registries
    are untouched. *)
Theorem default_prefix_created (arch : option string) (w : World) (prefix : string) :
  runner_config self !! default_prefix_key (effective_arch host arch) = Some prefix →
  prefix ∉ fs w →
  Py.os_path_dirname prefix ∈ fs w ∨ Py.os_path_dirname prefix ≠ "" →
  outcome w (EvMakedirs (Py.os_path_dirname prefix)) = None →
  outcome w (EvCreatePrefix prefix (effective_arch host arch) (get_executable self))
  = None →
  let parent := Py.os_path_dirname prefix in
  let found := bool_decide (parent ∈ fs w) in
  let made := if found then fs w else snd (PyOs.makedirs (fs w) parent) in
  ∃ w' : World,
    get_or_create_default_prefix host self arch w = (Ok prefix, w')
    ∧ fs w' = {[prefix]} ∪ made
    ∧ (found = false → fst (PyOs.makedirs (fs w) parent) = None)
    ∧ fs w ⊆ made
    ∧ (∀ d, d ∈ made → d ∈ fs w ∨ String.length d ≤ String.length parent)
    ∧ hives w' = hives w
    ∧ trace w'
      = trace w
          ++ [EvPathExists prefix false;
              EvLog Debug "Creating default wineuplay prefix" [];
              EvPathExists parent found]
          ++ (if found then [] else [EvMakedirs parent])
          ++ [EvCreatePrefix prefix (effective_arch host arch) (get_executable self)].
Proof.
  intros Hkey Hmissing Hparent Hmkdir Hcreate. cbv zeta.
  rewrite get_or_create_default_prefix_run, Hkey, (bool_decide_eq_false_2 _ Hmissing).
  rewrite create_default_prefix_run. cbv zeta. frame.
  rewrite chosen_arch_effective, Hcreate, Hmkdir.
  destruct (bool_decide (Py.os_path_dirname prefix ∈ fs w)) eqn:Eparent.
  - eexists. split; [reflexivity|].
    split; [done|]. split; [done|]. split; [done|]. split; [by left|].
    split; [done|].
    unfold touch, records; simpl. by rewrite <- !app_assoc.
  - apply bool_decide_eq_false_1 in Eparent.
    destruct Hparent as [Hparent|Hparent]; [done|].
    pose proof (makedirs_run_ok (String.length (Py.os_path_dirname prefix))
                  (fs w) _ Hparent Eparent) as Hok.
    pose proof (makedirs_run_grows (String.length (Py.os_path_dirname prefix))
                  (fs w) (Py.os_path_dirname prefix)) as Hgrows.
    pose proof (makedirs_run_made (String.length (Py.os_path_dirname prefix))
                  (fs w) (Py.os_path_dirname prefix)) as Hmade.
    fold (PyOs.makedirs (fs w) (Py.os_path_dirname prefix)) in Hok, Hgrows, Hmade.
    destruct (PyOs.makedirs (fs w) (Py.os_path_dirname prefix)) as [[e|] disk];
      [discriminate|].
    eexists. split; [reflexivity|].
    split; [done|]. split; [done|]. split; [done|]. split; [done|].
    split; [done|].
    unfold touch, on_disk, records; simpl. by rewrite <- !app_assoc.
Qed.

(** X3: creation happens once.  After a call that succeeded, a second
    call returns the same prefix after the one existence probe and
    creates nothing. *)
Theorem default_prefix_idempotent (arch : option string) (w w1 : World)
    (prefix : string) :
  get_or_create_default_prefix host self arch w = (Ok prefix, w1) →
  get_or_create_default_prefix host self arch w1
  = (Ok prefix, records [EvPathExists prefix true] w1).
Proof.
  intros Hfirst.
  destruct (get_or_create_default_prefix_exists arch w w1 prefix Hfirst)
    as [Hkey Hexists].
  by rewrite get_or_create_default_prefix_run, Hkey, (bool_decide_eq_true_2 _ Hexists).
Qed.

(** X4: an architecture without a configured default prefix makes the
    lookup raise [KeyError] on the key [default_<arch>_prefix], before
    anything is probed or created. *)
Theorem default_prefix_unknown_arch (arch : option string) (w : World) :
  runner_config self !! default_prefix_key (effective_arch host arch) = None →
  get_or_create_default_prefix host self arch w
  = (Raise (KeyError (default_prefix_key (effective_arch host arch))), w).
Proof.
  intros Hkey. by rewrite get_or_create_default_prefix_run, Hkey.
Qed.


End DefaultPrefix.

(** ** More on the search for the executable *)

Section SearchMore.

Variable host : Host.
Variable self : wineuplay.

(** The only exception a candidate prefix can raise is the [IndexError] of
    the open-command parse. *)
Lemma candidate_hit_raise (w : World) (prefix : string) (e : exn) :
  candidate_hit host w prefix = Raise e → e = IndexError.
Proof.
  unfold candidate_hit, open_command_result.
  repeat case_match; congruence.
Qed.

(** Without a [user.reg], what a candidate prefix yields is on disk. *)
Lemma candidate_hit_on_disk (w : World) (prefix path : string) :
  candidate_hit host w prefix = Ok (Some path) →
  Py.os_path_join prefix ["user.reg"] ∉ fs w →
  path ∈ fs w.
Proof.
  unfold candidate_hit. intros Hhit Hreg.
  destruct (List.find _ _) as [found|] eqn:Efind.
  - injection Hhit as <-. apply List.find_some in Efind as [_ Hfound].
    by apply bool_decide_eq_true_1 in Hfound.
  - by rewrite (bool_decide_eq_false_2 _ Hreg) in Hhit.
Qed.

(** What the loop over the candidates answers is what one of them
    yields. *)
Lemma for_each_candidates_source (candidates : list string) (w : World)
    (pre : list Event) (r : Result (option string)) (w' : World) :
  for_each candidates (probe_candidate host) (records pre w) = (r, w') →
  (∃ evs, w' = records (pre ++ evs) w)
  ∧ (r = Ok None ∨ ∃ c, c ∈ candidates ∧ r = candidate_hit host w c).
Proof.
  revert pre. induction candidates as [|c cs IH]; intros pre.
  { simpl. unfold ret. intros [= <- <-]. split; [|by left].
    exists []. by rewrite app_nil_r. }
  destruct (probe_candidate_frame host c w) as (e1 & Hrun1 & _).
  cbn [for_each]. unfold bind at 1. rewrite Hrun1.
  destruct (candidate_hit host w c) as [[path|]|e] eqn:Hc.
  - unfold ret. intros [= <- <-]. split; [by exists e1|].
    right. exists c. split; [by left|done].
  - intros Hrest. destruct (IH _ Hrest) as [[evs ->] Hsrc]. split.
    + exists (e1 ++ evs). by rewrite app_assoc.
    + destruct Hsrc as [->|(c' & Hin & ->)]; [by left|].
      right. exists c'. split; [by right|done].
  - intros [= <- <-]. split; [by exists e1|].
    right. exists c. split; [by left|done].
Qed.

(** The part of [get_uplay_path] after the custom location: the two
    lookups of the default prefixes and the loop over the candidates. *)
Definition default_search : M string :=
  do win64 <- get_default_prefix self "win64";
  do win32 <- get_default_prefix self "win32";
  do found <- for_each [win64; win32; expanduser host "~/.wine"] (probe_candidate host);
  ret (or_empty found).

Lemma get_uplay_path_split (w : World) :
  get_uplay_path host self w
  = match custom_executable host self with
    | Some exe =>
        if bool_decide (exe ∈ fs w)
        then (Ok exe, records [EvPathExists exe true] w)
        else default_search (records [EvPathExists exe false] w)
    | None => default_search w
    end.
Proof.
  unfold get_uplay_path, custom_executable. fold default_search.
  destruct (Py.truthy (or_empty (runner_config self !! "uplay_path"))); [|done].
  unfold bind at 1 2. rewrite path_exists_run.
  by destruct (bool_decide _).
Qed.

Lemma default_search_cases (w0 : World) :
  (∃ key, (key = "default_win64_prefix" ∨ key = "default_win32_prefix")
          ∧ runner_config self !! key = None
          ∧ default_search w0 = (Raise (KeyError key), w0))
  ∨ (∃ win64 win32 r w',
       runner_config self !! "default_win64_prefix" = Some win64
       ∧ runner_config self !! "default_win32_prefix" = Some win32
       ∧ for_each [win64; win32; expanduser host "~/.wine"] (probe_candidate host) w0
         = (r, w')
       ∧ default_search w0 = (result_map or_empty r, w')).
Proof.
  unfold default_search, get_default_prefix.
  change ("default_" +:+ "win64" +:+ "_prefix") with "default_win64_prefix".
  change ("default_" +:+ "win32" +:+ "_prefix") with "default_win32_prefix".
  destruct (runner_config self !! "default_win64_prefix") as [win64|] eqn:H64; cycle 1.
  { left. exists "default_win64_prefix". by repeat split; [left|..]. }
  destruct (runner_config self !! "default_win32_prefix") as [win32|] eqn:H32; cycle 1.
  { left. exists "default_win32_prefix". by repeat split; [right|..]. }
  right.
  destruct (for_each [win64; win32; expanduser host "~/.wine"] (probe_candidate host) w0)
    as [r w'] eqn:Hloop.
  exists win64, win32, r, w'. repeat split; try done.
  unfold bind, ret. cbv beta iota. rewrite Hloop. by destruct r.
Qed.

(** [get_uplay_path] only adds to the trace. *)
Lemma get_uplay_path_reads_only_frame (w : World) :
  ∃ evs, snd (get_uplay_path host self w) = records evs w.
Proof.
  assert (Hsearch : ∀ pre, ∃ evs, snd (default_search (records pre w)) = records evs w).
  { intros pre.
    destruct (default_search_cases (records pre w))
      as [(key & _ & _ & ->)|(win64 & win32 & r & w' & _ & _ & Hloop & ->)].
    - by exists pre.
    - destruct (for_each_candidates_source _ _ _ _ _ Hloop) as [[evs ->] _].
      by eexists. }
  rewrite get_uplay_path_split.
  destruct (custom_executable host self) as [exe|].
  - destruct (bool_decide (exe ∈ fs w)); [by eexists|apply Hsearch].
  - specialize (Hsearch []). by rewrite records_nil in Hsearch.
Qed.

(** X6: [get_uplay_path] only reads.  It leaves the files, the
    registries and the process lookups as they are and only adds to the
    trace; and what it raises is the [IndexError] of the open-command
    parse or the [KeyError] of a default prefix that is not configured. *)
Theorem get_uplay_path_reads_only (w : World) :
  (∃ evs, snd (get_uplay_path host self w) = records evs w)
  ∧ (∀ e, fst (get_uplay_path host self w) = Raise e →
       e = IndexError
       ∨ (e = KeyError "default_win64_prefix"
          ∧ runner_config self !! "default_win64_prefix" = None)
       ∨ (e = KeyError "default_win32_prefix"
          ∧ runner_config self !! "default_win32_prefix" = None)).
Proof.
  assert (Hsearch : ∀ pre,
    (∃ evs, snd (default_search (records pre w)) = records evs w)
    ∧ (∀ e, fst (default_search (records pre w)) = Raise e →
         e = IndexError
         ∨ (e = KeyError "default_win64_prefix"
            ∧ runner_config self !! "default_win64_prefix" = None)
         ∨ (e = KeyError "default_win32_prefix"
            ∧ runner_config self !! "default_win32_prefix" = None))).
  { intros pre.
    destruct (default_search_cases (records pre w))
      as [(key & Hkey & Hnone & ->)|(win64 & win32 & r & w' & _ & _ & Hloop & ->)].
    - split; [by exists pre|]. intros e [= <-].
      destruct Hkey as [->| ->]; [right; left|right; right]; done.
    - destruct (for_each_candidates_source _ _ _ _ _ Hloop) as [[evs ->] Hsrc].
      split; [by eexists|]. cbn [fst]. intros e Hraise. left.
      destruct Hsrc as [->|(c & _ & ->)]; [discriminate|].
      destruct (candidate_hit host w c) as [?|e'] eqn:Hc; [discriminate|].
      injection Hraise as <-. by apply candidate_hit_raise in Hc. }
  rewrite get_uplay_path_split.
  destruct (custom_executable host self) as [exe|].
  - destruct (bool_decide (exe ∈ fs w)).
    + split; [by eexists|]. discriminate.
    + apply Hsearch.
  - specialize (Hsearch []). by rewrite records_nil in Hsearch.
Qed.

(** X7: a default prefix that is not configured ends the search with a
    [KeyError] before any candidate is probed, whatever the other
    candidates hold. *)
Theorem get_uplay_path_needs_both_defaults (w : World) (key : string) :
  (∀ exe, custom_executable host self = Some exe → exe ∉ fs w) →
  (key = "default_win64_prefix" ∨ key = "default_win32_prefix") →
  runner_config self !! key = None →
  ∃ missing,
    (missing = "default_win64_prefix" ∨ missing = "default_win32_prefix")
    ∧ runner_config self !! missing = None
    ∧ get_uplay_path host self w
      = (Raise (KeyError missing), records (custom_probe host self) w).
Proof.
  intros Hmiss Hkey Hnone.
  assert (Hstart : get_uplay_path host self w
                   = default_search (records (custom_probe host self) w)).
  { rewrite get_uplay_path_split. unfold custom_probe.
    destruct (custom_executable host self) as [exe|]; [|by rewrite records_nil].
    by rewrite (bool_decide_eq_false_2 _ (Hmiss exe eq_refl)). }
  rewrite Hstart.
  destruct (default_search_cases (records (custom_probe host self) w))
    as [(missing & Hmissing & Hnone' & ->)|(win64 & win32 & _ & _ & H64 & H32 & _)].
  - by exists missing.
  - destruct Hkey as [->| ->]; congruence.
Qed.

(** X8: only the registry can name a path that is not there.  When no
    candidate prefix has a [user.reg] on disk, a path that
    [get_uplay_path] returns is empty or exists on disk. *)
Theorem get_uplay_path_on_disk (w w' : World) (path : string) :
  (∀ arch prefix,
     (arch = "win64" ∨ arch = "win32") →
     runner_config self !! default_prefix_key arch = Some prefix →
     Py.os_path_join prefix ["user.reg"] ∉ fs w) →
  Py.os_path_join (expanduser host "~/.wine") ["user.reg"] ∉ fs w →
  get_uplay_path host self w = (Ok path, w') →
  path = "" ∨ path ∈ fs w.
Proof.
  intros Hdefaults Hwine.
  assert (Hsearch : ∀ pre,
    default_search (records pre w) = (Ok path, w') → path = "" ∨ path ∈ fs w).
  { intros pre Hrun.
    destruct (default_search_cases (records pre w))
      as [(key & _ & _ & Hraise)|(win64 & win32 & r & w1 & H64 & H32 & Hloop & Hok)];
      [congruence|].
    rewrite Hok in Hrun.
    destruct (for_each_candidates_source _ _ _ _ _ Hloop) as [_ Hsrc].
    destruct Hsrc as [->|(c & Hin & ->)].
    { injection Hrun as <- _. by left. }
    destruct (candidate_hit host w c) as [[found|]|e] eqn:Hc; [| |discriminate].
    - injection Hrun as <- _. right.
      apply (candidate_hit_on_disk w c found Hc).
      apply elem_of_cons in Hin as [->|Hin].
      { by apply (Hdefaults "win64"); [left|]. }
      apply elem_of_cons in Hin as [->|Hin].
      { by apply (Hdefaults "win32"); [right|]. }
      apply elem_of_cons in Hin as [->|Hin]; [done|].
      by apply elem_of_nil in Hin.
    - injection Hrun as <- _. by left. }
  rewrite get_uplay_path_split.
  destruct (custom_executable host self) as [exe|].
  - destruct (bool_decide (exe ∈ fs w)) eqn:Eexe.
    + intros [= <- _]. right. by apply bool_decide_eq_true_1 in Eexe.
    + apply Hsearch.
  - specialize (Hsearch []). by rewrite records_nil in Hsearch.
Qed.

End SearchMore.

(** ** More on the commands *)

Definition NOT_FOUND : exn := RuntimeError "Can't find a Uplay executable".

Section CommandsMore.

Variable host : Host.
Variable self : wineuplay.

Lemma launch_args_run (w : World) :
  launch_args host self w
  = match get_uplay_path host self w with
    | (Ok uplay_path, w1) =>
        if Py.truthy uplay_path
        then (Ok ([get_executable self; uplay_path]
                    ++ split_arguments host (or_empty (runner_config self !! "args"))),
              w1)
        else (Raise NOT_FOUND, w1)
    | (Raise e, w1) => (Raise e, w1)
    end.
Proof.
  unfold launch_args, bind.
  destruct (get_uplay_path host self w) as [[uplay_path|e] w1]; [|done].
  by destruct (Py.truthy uplay_path).
Qed.

(** X9: no command without a launcher.  When the search comes back
    empty, [launch_args], [get_command] and [install_game] raise the
    same [RuntimeError] and nothing is executed; and launch arguments
    that are returned start with the Wine executable and a launcher path
    that is not empty. *)
Theorem no_command_without_launcher (w : World) :
  (∀ w1, get_uplay_path host self w = (Ok "", w1) →
     launch_args host self w = (Raise NOT_FOUND, w1)
     ∧ get_command host self w = (Raise NOT_FOUND, w1)
     ∧ ∀ game_id, game_id ≠ "" → install_game host self game_id w = (Raise NOT_FOUND, w1))
  ∧ (∀ args w1, launch_args host self w = (Ok args, w1) →
       ∃ uplay_path,
         uplay_path ≠ ""
         ∧ get_uplay_path host self w = (Ok uplay_path, w1)
         ∧ args = get_executable self :: uplay_path
                    :: split_arguments host (or_empty (runner_config self !! "args"))).
Proof.
  split.
  - intros w1 Hempty.
    assert (Hargs : launch_args host self w = (Raise NOT_FOUND, w1)).
    { by rewrite launch_args_run, Hempty. }
    split; [done|]. split.
    + unfold get_command, bind. by rewrite Hargs.
    + intros [|c rest] Hid; [done|].
      unfold install_game. cbn [Py.truthy negb]. unfold bind. by rewrite Hargs.
  - intros args w1. rewrite launch_args_run.
    destruct (get_uplay_path host self w) as [[[|c rest]|e] w0]; cbn [Py.truthy];
      [discriminate| |discriminate].
    intros [= <- <-]. by exists (String c rest).
Qed.

Lemma is_installed_run (w : World) :
  is_installed host self w
  = if wine_is_installed self then
      match runner_config self !! default_prefix_key (WINE_DEFAULT_ARCH host) with
      | None => (Raise (KeyError (default_prefix_key (WINE_DEFAULT_ARCH host))), w)
      | Some prefix =>
          if bool_decide (prefix ∈ fs w) then
            match get_uplay_path host self (records [EvPathExists prefix true] w) with
            | (Ok uplay_path, w1) =>
                (Ok (bool_decide (uplay_path ∈ fs w1)),
                 records [EvPathExists uplay_path (bool_decide (uplay_path ∈ fs w1))] w1)
            | (Raise e, w1) => (Raise e, w1)
            end
          else (Ok false, records [EvPathExists prefix false] w)
      end
    else (Ok false, w).
Proof.
  unfold is_installed, default_arch.
  destruct (wine_is_installed self); cbn [negb]; [|done].
  unfold bind at 1. rewrite (get_default_prefix_run self).
  destruct (runner_config self !! _) as [prefix|]; [|done].
  unfold bind at 1. rewrite path_exists_run.
  destruct (bool_decide (prefix ∈ fs w)); cbn [negb]; [|done].
  unfold bind.
  destruct (get_uplay_path host self _) as [[uplay_path|e] w1]; [|done].
  by rewrite path_exists_run.
Qed.

(** X10: [is_installed] answers [False] without a single probe when Wine
    is not installed, and without searching for the launcher when the
    default prefix of the default architecture is not on disk, wherever
    the launcher may be; it answers [True] only when that prefix and the
    path found by [get_uplay_path] both exist. *)
Theorem is_installed_gates (w : World) :
  (wine_is_installed self = false → is_installed host self w = (Ok false, w))
  ∧ (∀ prefix,
       wine_is_installed self = true →
       runner_config self !! default_prefix_key (WINE_DEFAULT_ARCH host) = Some prefix →
       prefix ∉ fs w →
       is_installed host self w = (Ok false, records [EvPathExists prefix false] w))
  ∧ (∀ w', is_installed host self w = (Ok true, w') →
       wine_is_installed self = true
       ∧ ∃ prefix uplay_path,
           runner_config self !! default_prefix_key (WINE_DEFAULT_ARCH host) = Some prefix
           ∧ prefix ∈ fs w
           ∧ fst (get_uplay_path host self (records [EvPathExists prefix true] w))
             = Ok uplay_path
           ∧ uplay_path ∈ fs w).
Proof.
  rewrite is_installed_run. split; [|split].
  - by intros ->.
  - intros prefix -> -> Hmissing. by rewrite (bool_decide_eq_false_2 _ Hmissing).
  - intros w'. destruct (wine_is_installed self); [|discriminate].
    destruct (runner_config self !! _) as [prefix|]; [|discriminate].
    destruct (bool_decide (prefix ∈ fs w)) eqn:Eprefix; [|discriminate].
    destruct (get_uplay_path_reads_only_frame host self
                (records [EvPathExists prefix true] w)) as [evs Hframe].
    destruct (get_uplay_path host self _) as [[uplay_path|e] w1] eqn:Hget;
      [|discriminate].
    intros [= Hfound _]. split; [done|]. exists prefix, uplay_path.
    split; [done|]. split; [by apply bool_decide_eq_true_1 in Eprefix|].
    rewrite Hget. split; [done|]. apply bool_decide_eq_true_1 in Hfound.
    cbn [snd] in Hframe. by rewrite Hframe in Hfound.
Qed.

End CommandsMore.

(** ** More on removal, shutdown and install *)

Definition NOT_INSTALLED_LOG : Event :=
  EvLog Warning "Trying to remove a wineuplay game but it's not installed." [].

(** The seconds slept among some events. *)
Fixpoint seconds_slept (evs : list Event) : nat :=
  match evs with
  | [] => 0
  | EvSleep seconds :: evs' => seconds + seconds_slept evs'
  | _ :: evs' => seconds_slept evs'
  end.

(** The forced kills among some events. *)
Fixpoint kills (evs : list Event) : nat :=
  match evs with
  | [] => 0
  | EvKillPid _ :: evs' => S (kills evs')
  | _ :: evs' => kills evs'
  end.

Lemma seconds_slept_app evs1 evs2 :
  seconds_slept (evs1 ++ evs2) = seconds_slept evs1 + seconds_slept evs2.
Proof.
  induction evs1 as [|ev evs1 IH]; [done|].
  destruct ev; simpl; rewrite ?IH; lia.
Qed.

Lemma kills_app evs1 evs2 : kills (evs1 ++ evs2) = kills evs1 + kills evs2.
Proof.
  induction evs1 as [|ev evs1 IH]; [done|].
  destruct ev; simpl; rewrite ?IH; lia.
Qed.

Lemma seconds_slept_polls answers first count :
  seconds_slept (poll_events answers first count) = count.
Proof.
  revert first. induction count as [|count IH]; intros first; [done|].
  rewrite poll_events_S, seconds_slept_app, IH. reflexivity.
Qed.

Lemma kills_polls answers first count : kills (poll_events answers first count) = 0.
Proof.
  revert first. induction count as [|count IH]; intros first; [done|].
  rewrite poll_events_S, kills_app, IH. reflexivity.
Qed.

Lemma force_shutdown_idle (self : wineuplay) (w : World) :
  running_at w (lookups w) = false →
  force_shutdown self w
  = (Ok tt, after w 1 [EvGetPid UPLAY_PATTERN (pids w (lookups w))]).
Proof.
  intros Hidle. unfold force_shutdown, bind. by rewrite is_running_run, Hidle.
Qed.

Lemma force_shutdown_stop_raises (self : wineuplay) (w : World) (e : exn) :
  running_at w (lookups w) = true →
  outcome w EvShutdown = Some e →
  force_shutdown self w = (Raise e, after w 1 (entry_events w)).
Proof.
  intros Hentry Hstop. unfold force_shutdown.
  unfold bind at 1. rewrite is_running_run, Hentry.
  unfold bind at 1. rewrite logger_run, after_after.
  unfold bind at 1. rewrite (act_run_raise _ e) by done.
  by rewrite after_after.
Qed.

(** What [force_shutdown] answers depends on the entry lookup and on the
    stop request only. *)
Lemma force_shutdown_result (self : wineuplay) (w : World) :
  fst (force_shutdown self w)
  = if running_at w (lookups w)
    then match outcome w EvShutdown with
         | Some e => Raise e
         | None => Ok tt
         end
    else Ok tt.
Proof.
  destruct (running_at w (lookups w)) eqn:Hentry.
  - destruct (outcome w EvShutdown) as [e|] eqn:Hstop.
    + by rewrite (force_shutdown_stop_raises self w e).
    + destruct (force_shutdown_run self w Hentry Hstop) as (g & tail & count & -> & _).
      reflexivity.
  - by rewrite force_shutdown_idle.
Qed.

(** Where the one forced kill of a list of events is. *)
Lemma single_kill_split (a b pre post : list Event) (p pid : option string) :
  kills a = 0 → kills b = 0 →
  a ++ EvKillPid p :: b = pre ++ EvKillPid pid :: post →
  pre = a ∧ post = b.
Proof.
  intros Ha Hb. revert pre. induction a as [|x a IH]; intros pre Heq.
  - destruct pre as [|y pre]; simpl in Heq.
    + by injection Heq as _ <-.
    + injection Heq as _ Hrest. rewrite Hrest, kills_app in Hb. simpl in Hb. lia.
  - destruct pre as [|y pre]; simpl in Heq.
    + injection Heq as -> _. discriminate Ha.
    + injection Heq as <- Hrest.
      assert (Ha' : kills a = 0) by (destruct x; simpl in Ha; (exact Ha || lia)).
      destruct (IH Ha' pre Hrest) as [-> ->]. done.
Qed.

Lemma no_kill_no_split (evs pre post : list Event) (pid : option string) :
  kills evs = 0 → evs ≠ pre ++ EvKillPid pid :: post.
Proof.
  intros Hnone ->. rewrite kills_app in Hnone. simpl in Hnone. lia.
Qed.

(** X11: [force_shutdown] is bounded and touches nothing but processes.
    Whatever the launcher does, the call sleeps fifteen seconds at most
    and sends one kill at most; files and registries are as before.
    Wherever the kill is among the calls, the stop request and exactly
    the ten seconds of the graceful window are before it, without a
    kill, and between one and five seconds of polling are after it,
    without a second kill. *)
Theorem force_shutdown_bounded (self : wineuplay) (w : World) :
  ∃ (count : nat) (evs : list Event),
    snd (force_shutdown self w) = after w count evs
    ∧ seconds_slept evs ≤ 15
    ∧ kills evs ≤ 1
    ∧ (kills evs = 1 → 10 ≤ seconds_slept evs)
    ∧ (∀ pre pid post,
         evs = pre ++ EvKillPid pid :: post →
         EvShutdown ∈ pre
         ∧ seconds_slept pre = 10
         ∧ kills pre = 0
         ∧ 1 ≤ seconds_slept post ≤ 5
         ∧ kills post = 0).
Proof.
  destruct (running_at w (lookups w)) eqn:Hentry; cycle 1.
  { rewrite force_shutdown_idle by done. eexists _, _. split; [reflexivity|].
    simpl. split; [lia|]. split; [lia|]. split; [lia|].
    intros pre pid post Heq. by apply no_kill_no_split in Heq. }
  destruct (outcome w EvShutdown) as [e|] eqn:Hstop.
  { rewrite (force_shutdown_stop_raises self w e) by done.
    eexists _, _. split; [reflexivity|]. simpl.
    split; [lia|]. split; [lia|]. split; [lia|].
    intros pre pid post Heq. by apply no_kill_no_split in Heq. }
  destruct (force_shutdown_run self w Hentry Hstop)
    as (g & tail & count & -> & Hg & _ & Hcases).
  eexists _, _. split; [reflexivity|].
  destruct Hcases as [[_ ->]|(-> & _ & f & final & -> & Hf & _ & Hfinal)].
  - assert (Hkills : kills (entry_events w ++ poll_events (pids w) (S (lookups w)) g ++ [])
                     = 0).
    { by rewrite !kills_app, kills_polls. }
    rewrite Hkills.
    rewrite !seconds_slept_app, seconds_slept_polls. simpl.
    split; [lia|]. split; [lia|]. split; [lia|].
    intros pre pid post Heq. by apply no_kill_no_split in Heq.
  - pose (before := entry_events w ++ poll_events (pids w) (S (lookups w)) 10
                     ++ [EvLog Info "Forcing Uplay shutdown" [];
                         EvGetPid UPLAY_PATTERN (pids w (lookups w + 11))]).
    pose (later := poll_events (pids w) (lookups w + 12) f ++ final).
    assert (Hshape : entry_events w ++ poll_events (pids w) (S (lookups w)) 10
                       ++ escalation_events w
                       ++ poll_events (pids w) (lookups w + 12) f ++ final
                     = before ++ EvKillPid (pids w (lookups w + 11)) :: later).
    { unfold before, later, escalation_events. by rewrite <- !app_assoc. }
    assert (Hbefore : kills before = 0 ∧ seconds_slept before = 10
                      ∧ EvShutdown ∈ before).
    { unfold before. rewrite !kills_app, !seconds_slept_app, kills_polls,
        seconds_slept_polls. split; [done|]. split; [done|].
      apply elem_of_app. left. unfold entry_events. by right; right; left. }
    assert (Hlater : kills later = 0 ∧ seconds_slept later = f).
    { unfold later. rewrite kills_app, seconds_slept_app, kills_polls,
        seconds_slept_polls.
      destruct Hfinal as [[_ ->]|(_ & _ & ->)]; simpl; lia. }
    destruct Hbefore as (Hk1 & Hs1 & Hstopped). destruct Hlater as (Hk2 & Hs2).
    rewrite Hshape. clear Hshape. clearbody before later.
    rewrite kills_app, seconds_slept_app. simpl. rewrite Hk1, Hk2, Hs1, Hs2.
    split; [lia|]. split; [lia|]. split; [lia|].
    intros pre pid post Heq.
    destruct (single_kill_split _ _ _ _ _ _ Hk1 Hk2 Heq) as [-> ->].
    rewrite Hk1, Hk2, Hs1, Hs2. repeat split; (done || lia).
Qed.

(** [try: body except RuntimeError: handler] *)
Definition try_except_RuntimeError {A} (body handler : M A) : M A :=
  fun w =>
    match body w with
    | (Raise (RuntimeError _), w') => handler w'
    | answer => answer
    end.

(** [wineuplay.prelaunch()]; [super_prelaunch] is the inherited method. *)
Definition prelaunch (self : wineuplay) (super_prelaunch : M unit) : M bool :=
  do_ super_prelaunch;
  do early <- try_except_RuntimeError
                (do_ force_shutdown self; ret None)
                (ret (Some false));
  match early with
  | Some answer => ret answer
  | None => ret true
  end.

Section Lifecycle.

Variable host : Host.
Variable self : wineuplay.

(** X12: [prelaunch] answers [False] exactly when the launcher runs and
    the stop request raises a [RuntimeError]; any other exception of the
    stop request is raised; in all other cases the answer is [True],
    also when the launcher is still running after both poll windows. *)
Theorem prelaunch_answers (super_prelaunch : M unit) (w w1 : World) :
  super_prelaunch w = (Ok tt, w1) →
  fst (prelaunch self super_prelaunch w)
  = if running_at w1 (lookups w1)
    then match outcome w1 EvShutdown with
         | Some (RuntimeError _) => Ok false
         | Some e => Raise e
         | None => Ok true
         end
    else Ok true.
Proof.
  intros Hsuper. unfold prelaunch.
  unfold bind at 1. rewrite Hsuper.
  unfold bind at 1. unfold try_except_RuntimeError. unfold bind at 1.
  pose proof (force_shutdown_result self w1) as Hresult.
  destruct (force_shutdown self w1) as [[[]|e] w2]; cbn [fst] in Hresult.
  - unfold ret. cbn [fst].
    destruct (running_at w1 (lookups w1)); [|done].
    by destruct (outcome w1 EvShutdown).
  - destruct (running_at w1 (lookups w1)); [|discriminate].
    destruct (outcome w1 EvShutdown) as [e'|]; [|discriminate].
    injection Hresult as <-. by destruct e.
Qed.

(** X13: [remove_game_data] on a runner that is not installed logs a
    warning and answers [False]: the launcher is not shut down and no
    command is started.  On an installed runner a stop request that
    raises ends the call before any command is started, and a game id
    given in the call is the one that is uninstalled, whatever the game
    configuration says. *)
Theorem remove_game_data_guards (w : World) :
  (∀ game_id_arg w1,
     is_installed host self w = (Ok false, w1) →
     remove_game_data host self game_id_arg w
     = (Ok (Some false), records [NOT_INSTALLED_LOG] w1))
  ∧ (∀ game_id_arg w1 w2 e,
       is_installed host self w = (Ok true, w1) →
       force_shutdown self w1 = (Raise e, w2) →
       remove_game_data host self game_id_arg w = (Raise e, w2))
  ∧ (∀ explicit args w1 w2 w3,
       explicit ≠ "" →
       is_installed host self w = (Ok true, w1) →
       force_shutdown self w1 = (Ok tt, w2) →
       launch_args host self w2 = (Ok args, w3) →
       let command :=
         EvMonitoredStart (args ++ ["uplay://uninstall/" +:+ explicit])
           (get_env self (Some false)) in
       remove_game_data host self (Some explicit) w
       = (match outcome w3 command with
          | Some e => Raise e
          | None => Ok None
          end, records [command] w3)).
Proof.
  split; [|split].
  - intros game_id_arg w1 Hinst. unfold remove_game_data.
    unfold bind at 1. rewrite Hinst. reflexivity.
  - intros game_id_arg w1 w2 e Hinst Hstop. unfold remove_game_data.
    unfold bind at 1. rewrite Hinst. cbn [negb].
    unfold bind at 1. by rewrite Hstop.
  - intros explicit args w1 w2 w3 Hid Hinst Hstop Hargs. cbv zeta.
    destruct explicit as [|c rest]; [done|].
    unfold remove_game_data.
    unfold bind at 1. rewrite Hinst. cbn [negb].
    unfold bind at 1. rewrite Hstop.
    unfold bind at 1. rewrite Hargs.
    cbn [Py.truthy_opt Py.truthy].
    change (or_empty (Some (String c rest))) with (String c rest).
    unfold bind, act, ret, Py.percent_s.
    by destruct (outcome w3 _).
Qed.


End Lifecycle.

(** ** More on the open command *)

Lemma split_at_separator sep a b :
  Py.contains sep a = false →
  Py.split sep (a +:+ String sep b) = a :: Py.split sep b.
Proof.
  induction a as [|c a IH]; simpl.
  - intros _. by rewrite Ascii.eqb_refl.
  - destruct (Ascii.eqb c sep); simpl; [done|].
    intros Ha. by rewrite (IH Ha).
Qed.

Lemma lstrip_no_leading c s : Py.startswith c (Py.lstrip [c] s) = false.
Proof.
  induction s as [|c' s IH]; [done|]. simpl.
  destruct (Ascii.eqb c' c) eqn:E; simpl; [done|by rewrite E].
Qed.

Lemma rstrip_no_trailing c s : Py.endswith c (Py.rstrip [c] s) = false.
Proof.
  induction s as [|c' s IH]; [done|]. simpl.
  destruct (Py.rstrip [c] s) as [|d r] eqn:Er.
  - destruct (Ascii.eqb c' c) eqn:E; simpl; [done|by rewrite E].
  - exact IH.
Qed.

Lemma rstrip_keeps_head c s :
  Py.startswith c s = false → Py.startswith c (Py.rstrip [c] s) = false.
Proof.
  destruct s as [|c' s]; [done|]. simpl. intros E.
  destruct (Py.rstrip [c] s); [|by simpl].
  rewrite E. simpl. exact E.
Qed.

(** X15: the open command is read between its first two double quotes.
    For a value [before"path"rest] whose [before] and [path] hold no
    double quote, [get_open_command] answers [path] without the
    backslashes at its ends, so that the answer neither starts nor ends
    with a backslash. *)
Theorem get_open_command_quoted (registry : WineRegistry) (w : World)
    (before path rest : string) :
  keys registry !! OPEN_COMMAND_KEY ≫= (fun key => key !! "default")
  = Some (before +:+ String Py.dquote (path +:+ String Py.dquote rest)) →
  Py.contains Py.dquote before = false →
  Py.contains Py.dquote path = false →
  fst (get_open_command registry w) = Ok (Some (Py.strip [Py.backslash] path))
  ∧ Py.startswith Py.backslash (Py.strip [Py.backslash] path) = false
  ∧ Py.endswith Py.backslash (Py.strip [Py.backslash] path) = false.
Proof.
  intros Hvalue Hbefore Hpath. split; [|split].
  - rewrite get_open_command_run, Hvalue. cbn [fst]. unfold open_command_result.
    change (or_empty (Some ?v)) with v.
    rewrite (split_at_separator _ _ _ Hbefore), (split_at_separator _ _ _ Hpath).
    by destruct before.
  - unfold Py.strip. apply rstrip_keeps_head, lstrip_no_leading.
  - unfold Py.strip. apply rstrip_no_trailing.
Qed.

Lemma open_command_result_quoted (before path rest : string) :
  Py.contains Py.dquote before = false →
  Py.contains Py.dquote path = false →
  open_command_result
    (Some (before +:+ String Py.dquote (path +:+ String Py.dquote rest)))
  = Ok (Some (Py.strip [Py.backslash] path)).
Proof.
  intros Hbefore Hpath. unfold open_command_result.
  change (or_empty (Some ?v)) with v.
  rewrite (split_at_separator _ _ _ Hbefore), (split_at_separator _ _ _ Hpath).
  by destruct before.
Qed.

Section RegistryHit.

Variable host : Host.
Variable self : wineuplay.

(** X16: an open command in the [user.reg] of the win64 prefix decides
    the search.  When that prefix holds no launcher at the well-known
    places, the calls are, after the custom-location step: the two probes
    of the well-known places, the probe of [user.reg], the opening of that
    registry, the query of the open command, and the case correction of
    the translated path against the disk, whose result is returned.  The
    returned path is not probed, and there is no probe and no registry
    read for the win32 prefix or for [~/.wine]. *)
Theorem registry_entry_decides (w : World) (win64 win32 before path rest : string) :
  runner_config self !! "default_win64_prefix" = Some win64 →
  runner_config self !! "default_win32_prefix" = Some win32 →
  (∀ exe, custom_executable host self = Some exe → exe ∉ fs w) →
  (∀ place,
     place ∈ map (fun default_path => Py.os_path_join win64 [default_path]) default_paths →
     place ∉ fs w) →
  let user_reg := Py.os_path_join win64 ["user.reg"] in
  user_reg ∈ fs w →
  registry_value w user_reg OPEN_COMMAND_KEY "default"
  = Some (before +:+ String Py.dquote (path +:+ String Py.dquote rest)) →
  Py.contains Py.dquote before = false →
  Py.contains Py.dquote path = false →
  Py.strip [Py.backslash] path ≠ "" →
  let translated :=
    get_unix_path host (mkRegistry user_reg (default ∅ (hives w !! user_reg)))
      (Py.strip [Py.backslash] path) in
  get_uplay_path host self w
  = (Ok (case_corrected host (fs w) translated),
     records
       (custom_probe host self
          ++ map (fun place => EvPathExists place false)
               (map (fun default_path => Py.os_path_join win64 [default_path])
                  default_paths)
          ++ [EvPathExists user_reg true;
              EvOpenRegistry user_reg;
              EvQuery user_reg OPEN_COMMAND_KEY (Some "default");
              EvFixPathCase translated]) w).
Proof.
  intros H64 H32 Hmiss Hplaces user_reg Hreg Hvalue Hbefore Hpath Hstripped translated.
  assert (H1 := Hplaces _ ltac:(left)).
  assert (H2 := Hplaces _ ltac:(right; left)).
  assert (Hhit : candidate_hit host w win64
                 = Ok (Some (case_corrected host (fs w) translated))).
  { unfold candidate_hit, default_paths in *. cbn [map List.find] in *.
    rewrite (bool_decide_eq_false_2 _ H1), (bool_decide_eq_false_2 _ H2).
    fold user_reg. rewrite (bool_decide_eq_true_2 _ Hreg), Hvalue.
    rewrite (open_command_result_quoted _ _ _ Hbefore Hpath).
    destruct (Py.strip [Py.backslash] path); [done|]. reflexivity. }
  assert (Hevents : candidate_events host w win64
                    = map (fun place => EvPathExists place false)
                        (map (fun default_path => Py.os_path_join win64 [default_path])
                           default_paths)
                        ++ [EvPathExists user_reg true;
                            EvOpenRegistry user_reg;
                            EvQuery user_reg OPEN_COMMAND_KEY (Some "default");
                            EvFixPathCase translated]).
  { unfold candidate_events, default_paths in *.
    cbn [map List.find place_probes] in *.
    rewrite (bool_decide_eq_false_2 _ H1), (bool_decide_eq_false_2 _ H2).
    fold user_reg. rewrite (bool_decide_eq_true_2 _ Hreg), Hvalue.
    rewrite (open_command_result_quoted _ _ _ Hbefore Hpath).
    destruct (Py.strip [Py.backslash] path); [done|]. reflexivity. }
  rewrite (get_uplay_path_by_search host self w win64 win32 H64 H32 Hmiss).
  cbn [search]. by rewrite Hhit, Hevents.
Qed.

End RegistryHit.

Section SearchOrder.

Variable host : Host.
Variable self : wineuplay.

(** X18: the order of the search.  With both default prefixes configured
    and no custom executable on disk, the candidates are the win64
    default prefix, the win32 default prefix and [~/.wine], in this
    order.  The first of them that yields something, or raises, decides
    the answer, and the calls made after the custom-location step are
    exactly the calls of the candidates up to and including that one, in
    order; when none yields anything, the answer is the empty string
    after the calls of all three.  Every call made for a candidate is a
    probe of one of its three paths, a read of the open command in its
    own [user.reg], or the case correction of the path read there, and a
    candidate that yields nothing was probed at all three paths.  In
    particular, a launcher that is under the win32 default prefix only
    is returned when the win64 prefix holds no launcher and has no
    [user.reg] or no open command in it. *)
Theorem search_in_order (w : World) (win64 win32 : string) :
  runner_config self !! "default_win64_prefix" = Some win64 →
  runner_config self !! "default_win32_prefix" = Some win32 →
  (∀ exe, custom_executable host self = Some exe → exe ∉ fs w) →
  let candidates := [win64; win32; expanduser host "~/.wine"] in
  let places prefix :=
    map (fun default_path => Py.os_path_join prefix [default_path]) default_paths in
  (∀ i c,
     candidates !! i = Some c →
     (∀ j c', j < i → candidates !! j = Some c' → candidate_hit host w c' = Ok None) →
     candidate_hit host w c ≠ Ok None →
     get_uplay_path host self w
     = (result_map or_empty (candidate_hit host w c),
        records
          (custom_probe host self
             ++ concat (map (candidate_events host w) (take (S i) candidates))) w))
  ∧ ((∀ c, c ∈ candidates → candidate_hit host w c = Ok None) →
     get_uplay_path host self w
     = (Ok "",
        records
          (custom_probe host self ++ concat (map (candidate_events host w) candidates))
          w))
  ∧ (∀ c ev, ev ∈ candidate_events host w c → about_candidate host w c ev)
  ∧ (∀ c, candidate_hit host w c = Ok None →
          probed (candidate_events host w c) = candidate_paths c)
  ∧ (∀ exe,
       exe ∈ places win32 → exe ∈ fs w →
       (∀ other, other ∈ places win32 → other ∈ fs w → other = exe) →
       (∀ place, place ∈ places win64 → place ∉ fs w) →
       (Py.os_path_join win64 ["user.reg"] ∉ fs w
        ∨ Py.truthy_opt (registry_value w (Py.os_path_join win64 ["user.reg"])
                           OPEN_COMMAND_KEY "default") = false) →
       get_uplay_path host self w
       = (Ok exe,
          records
            (custom_probe host self
               ++ candidate_events host w win64 ++ candidate_events host w win32) w)).
Proof.
  intros H64 H32 Hmiss candidates places.
  pose proof (get_uplay_path_by_search host self w win64 win32 H64 H32 Hmiss) as Hrun.
  fold candidates in Hrun.
  split; [|split; [|split; [|split]]].
  - intros i c Hi Hbefore Hhit.
    by rewrite Hrun, (search_decided host w candidates i c Hi Hbefore Hhit).
  - intros Hnone. by rewrite Hrun, (search_undecided host w candidates Hnone).
  - intros c ev. apply candidate_events_about.
  - intros c. apply candidate_events_probed.
  - intros exe Hin Hexe Honly Hno64 Hreg64.
    pose proof (candidate_hit_nothing host w win64 Hno64 Hreg64) as Hhit64.
    pose proof (candidate_hit_static host w win32 exe Hin Hexe Honly) as Hhit32.
    rewrite Hrun. unfold candidates. cbn [search]. rewrite Hhit64, Hhit32.
    cbn [fst snd result_map or_empty]. reflexivity.
Qed.

End SearchOrder.

(** ** The runner options set up by [__init__] *)

(** One entry of [runner_options]: a dictionary with the keys [option],
    [type], [label] and [help], and [advanced] and [default] when given. *)
Record RunnerOption : Type := mkOption {
  opt_option : string;
  opt_type : string;
  opt_label : string;
  opt_help : string;
  opt_advanced : option bool;
  opt_default : option string
}.

Definition NEWLINE : string := String (Ascii.ascii_of_nat 10) EmptyString.

(** The list [wineuplay_options] of [__init__]; [runner_dir] is
    [settings.RUNNER_DIR]. *)
Definition wineuplay_options (runner_dir : string) : list RunnerOption :=
  [ mkOption "uplay_path" "directory_chooser" "Custom Uplay location"
      ("Choose a folder containing Uplay.exe" +:+ NEWLINE
         +:+ "By default, Lutris will look for a Uplay installation "
         +:+ "into ~/.wine or will install it in its own custom Wine "
         +:+ "prefix.")
      None None;
    mkOption "args" "string" "Arguments"
      ("Extra command line arguments used when " +:+ "launching Uplay")
      (Some true) None;
    mkOption "default_win32_prefix" "directory_chooser" "Default Wine prefix (32bit)"
      "Default prefix location for Uplay (32 bit)"
      (Some true) (Some (Py.os_path_join runner_dir ["wineuplay/prefix"]));
    mkOption "default_win64_prefix" "directory_chooser" "Default Wine prefix (64bit)"
      "Default prefix location for Uplay (64 bit)"
      (Some true) (Some (Py.os_path_join runner_dir ["wineuplay/prefix64"])) ].

(** The loop
    [for option in reversed(options): runner_options.insert(0, option)]. *)
Definition insert_reversed {A} (options runner_options : list A) : list A :=
  fold_left (fun inserted option => option :: inserted) (rev options) runner_options.

(** What [__init__] makes of the inherited [runner_options]. *)
Definition init_runner_options (runner_dir : string)
    (runner_options : list RunnerOption) : list RunnerOption :=
  insert_reversed (wineuplay_options runner_dir) runner_options.

Lemma insert_reversed_app {A} (options runner_options : list A) :
  insert_reversed options runner_options = options ++ runner_options.
Proof.
  unfold insert_reversed. revert runner_options.
  induction options as [|option options IH]; intros runner_options; [done|].
  simpl. by rewrite fold_left_app, IH.
Qed.

(** X17: inserting the reversed list at the front keeps the order.  After
    [__init__] the runner options start with [uplay_path], [args],
    [default_win32_prefix] and [default_win64_prefix], in this order,
    and the inherited options follow as they were; on a list that is
    shared, a second [__init__] puts the four in front once more. *)
Theorem init_runner_options_order (runner_dir : string)
    (runner_options : list RunnerOption) :
  init_runner_options runner_dir runner_options
  = wineuplay_options runner_dir ++ runner_options
  ∧ map opt_option (take 4 (init_runner_options runner_dir runner_options))
    = ["uplay_path"; "args"; "default_win32_prefix"; "default_win64_prefix"]
  ∧ drop 4 (init_runner_options runner_dir runner_options) = runner_options
  ∧ init_runner_options runner_dir (init_runner_options runner_dir runner_options)
    = wineuplay_options runner_dir ++ wineuplay_options runner_dir ++ runner_options.
Proof.
  unfold init_runner_options. rewrite !insert_reversed_app. done.
Qed.

(** ** More concrete runs *)

Module MoreFixtures.


(** The default prefixes are three directories down. *)
Definition deep : wineuplay :=
  mkRunner {[ "default_win64_prefix" := "/srv/games/uplay/prefix64";
              "default_win32_prefix" := "/srv/games/uplay/prefix" ]} no_game
           "wine" "win32" (fun _ => []) true.

(** A default prefix without a directory part. *)
Definition relative : wineuplay :=
  mkRunner {[ "default_win64_prefix" := "prefix64";
              "default_win32_prefix" := "prefix" ]} no_game
           "wine" "win32" (fun _ => []) true.

(** Only the win64 default prefix is configured. *)
Definition half_configured : wineuplay :=
  mkRunner {[ "default_win64_prefix" := "/r/prefix64" ]} no_game
           "wine" "win32" (fun _ => []) true.

Definition exe_wine : string :=
  "/home/u/.wine/drive_c/Program Files/Ubisoft/Ubisoft Game Launcher/upc.exe".

(** The launcher is in [~/.wine]; no default prefix is on disk. *)
Definition in_home_wine : World := quiet {[ exe_wine ]} ∅.

(** The open command as Uplay writes it: the path and [%1], each in
    double quotes. *)
Definition quoted_command : string :=
  String Py.dquote ("C:\Uplay\upc.exe" +:+ String Py.dquote
                      (" " +:+ String Py.dquote ("%1" +:+ String Py.dquote ""))).

Definition quoted : WineRegistry :=
  mkRegistry "/r/prefix64/user.reg"
             {[ OPEN_COMMAND_KEY := {[ "default" := quoted_command ]} ]}.

(** The win64 prefix has a [user.reg] with an open command and no
    launcher; the launcher is in the win32 prefix. *)
Definition stale_registry : World :=
  quiet {[ "/r/prefix64/user.reg"; exe32 ]}
        {[ "/r/prefix64/user.reg" :=
             {[ OPEN_COMMAND_KEY := {[ "default" := quoted_command ]} ]} ]}.

End MoreFixtures.

Import MoreFixtures.

Lemma default_prefix_existing_witness :
  get_or_create_default_prefix host0 plain (Some "auto") only_win32
  = (Ok "/r/prefix64", records [EvPathExists "/r/prefix64" true] only_win32).
Proof.
  apply (default_prefix_existing host0 plain (Some "auto") only_win32 "/r/prefix64").
  - vm_compute. reflexivity.
  - in_fs.
Defined.

(** On an empty disk the prefix and every directory above it are made. *)
Lemma default_prefix_created_witness :
  fst (get_or_create_default_prefix host0 deep None bare)
  = Ok "/srv/games/uplay/prefix64"
  ∧ (∀ d, d ∈ ["/"; "/srv"; "/srv/games"; "/srv/games/uplay";
               "/srv/games/uplay/prefix64"] →
          d ∈ fs (snd (get_or_create_default_prefix host0 deep None bare))).
Proof.
  destruct (default_prefix_created host0 deep None bare "/srv/games/uplay/prefix64")
    as (w' & Hrun & Hfs & _).
  - vm_compute. reflexivity.
  - not_in_fs.
  - right. discriminate.
  - reflexivity.
  - reflexivity.
  - rewrite Hrun. split; [reflexivity|]. cbn [snd]. rewrite Hfs.
    intros d Hd. repeat (apply elem_of_cons in Hd as [->|Hd]; [compute_done|]).
    by apply elem_of_nil in Hd.
Defined.

Lemma default_prefix_idempotent_witness :
  get_or_create_default_prefix host0 plain None
    (snd (get_or_create_default_prefix host0 plain None bare))
  = (Ok "/r/prefix64",
     records [EvPathExists "/r/prefix64" true]
       (snd (get_or_create_default_prefix host0 plain None bare))).
Proof.
  apply (default_prefix_idempotent host0 plain None bare).
  vm_compute. reflexivity.
Defined.

Lemma default_prefix_unknown_arch_witness :
  get_or_create_default_prefix host0 plain (Some "win16") bare
  = (Raise (KeyError "default_win16_prefix"), bare).
Proof.
  apply (default_prefix_unknown_arch host0 plain (Some "win16") bare).
  vm_compute. reflexivity.
Defined.


(** A prefix without a directory part: [os.makedirs] of the empty name
    raises before the prefix is initialised. *)
Example default_prefix_relative :
  get_or_create_default_prefix host0 relative None bare
  = (Raise (FileNotFoundError ""),
     records [EvPathExists "prefix64" false;
              EvLog Debug "Creating default wineuplay prefix" [];
              EvPathExists "" false;
              EvMakedirs ""] bare).
Proof. vm_compute. reflexivity. Qed.

Lemma get_uplay_path_needs_both_defaults_witness :
  fst (get_uplay_path host0 half_configured in_home_wine)
  = Raise (KeyError "default_win32_prefix").
Proof.
  destruct (get_uplay_path_needs_both_defaults host0 half_configured in_home_wine
              "default_win32_prefix") as (missing & Hmissing & Hnone & Hrun).
  - intros exe H. vm_compute in H. discriminate H.
  - by right.
  - vm_compute. reflexivity.
  - rewrite Hrun. destruct Hmissing as [-> | ->]; [|reflexivity].
    vm_compute in Hnone. discriminate Hnone.
Defined.

Lemma get_uplay_path_on_disk_witness : exe32 = "" ∨ exe32 ∈ fs only_win32.
Proof.
  apply (get_uplay_path_on_disk host0 plain only_win32
           (snd (get_uplay_path host0 plain only_win32)) exe32).
  - intros arch prefix [-> | ->] H; vm_compute in H; injection H as <-; not_in_fs.
  - not_in_fs.
  - vm_compute. reflexivity.
Defined.

Lemma no_command_without_launcher_witness :
  install_game host0 plain "46" bare
  = (Raise NOT_FOUND, snd (get_uplay_path host0 plain bare)).
Proof.
  apply (proj1 (no_command_without_launcher host0 plain bare)
           (snd (get_uplay_path host0 plain bare))).
  - vm_compute. reflexivity.
  - discriminate.
Defined.

Lemma is_installed_gates_witness :
  is_installed host0 plain in_home_wine
  = (Ok false, records [EvPathExists "/r/prefix64" false] in_home_wine).
Proof.
  apply (proj1 (proj2 (is_installed_gates host0 plain in_home_wine)) "/r/prefix64").
  - reflexivity.
  - vm_compute. reflexivity.
  - not_in_fs.
Defined.

Lemma prelaunch_answers_witness :
  fst (prelaunch plain (ret tt) immortal) = Ok true
  ∧ fst (prelaunch plain (ret tt) stop_fails) = Ok false.
Proof.
  split.
  - by rewrite (prelaunch_answers plain (ret tt) immortal immortal eq_refl).
  - by rewrite (prelaunch_answers plain (ret tt) stop_fails stop_fails eq_refl).
Defined.

Lemma remove_game_data_guards_witness :
  remove_game_data host0 plain (Some "46") bare
  = (Ok (Some false),
     records [NOT_INSTALLED_LOG] (snd (is_installed host0 plain bare))).
Proof.
  apply (proj1 (remove_game_data_guards host0 plain bare)).
  vm_compute. reflexivity.
Defined.

Lemma get_open_command_quoted_witness :
  fst (get_open_command quoted bare) = Ok (Some "C:\Uplay\upc.exe").
Proof.
  destruct (get_open_command_quoted quoted bare ""
              "C:\Uplay\upc.exe"
              (" " +:+ String Py.dquote ("%1" +:+ String Py.dquote "")))
    as (Hanswer & _).
  - vm_compute. reflexivity.
  - reflexivity.
  - reflexivity.
  - exact Hanswer.
Defined.

(** The stale entry of the win64 prefix hides the launcher of the win32
    prefix. *)
Lemma registry_entry_decides_witness :
  get_uplay_path host0 plain stale_registry
  = (Ok "C:\Uplay\upc.exe",
     records
       [EvPathExists
          "/r/prefix64/drive_c/Program Files (x86)/Ubisoft/Ubisoft Game Launcher/                upc.exe"
          false;
        EvPathExists exe64 false;
        EvPathExists "/r/prefix64/user.reg" true;
        EvOpenRegistry "/r/prefix64/user.reg";
        EvQuery "/r/prefix64/user.reg" OPEN_COMMAND_KEY (Some "default");
        EvFixPathCase "C:\Uplay\upc.exe"]
       stale_registry)
  ∧ ("C:\Uplay\upc.exe" ∉ fs stale_registry)
  ∧ exe32 ∈ fs stale_registry.
Proof.
  split; [|split; [not_in_fs|in_fs]].
  rewrite (registry_entry_decides host0 plain stale_registry "/r/prefix64" "/r/prefix"
             "" "C:\Uplay\upc.exe"
             (" " +:+ String Py.dquote ("%1" +:+ String Py.dquote ""))).
  - reflexivity.
  - vm_compute. reflexivity.
  - vm_compute. reflexivity.
  - intros exe H. vm_compute in H. discriminate H.
  - intros place Hin.
    apply elem_of_cons in Hin as [->|Hin]; [not_in_fs|].
    apply elem_of_cons in Hin as [->|Hin]; [not_in_fs|].
    by apply elem_of_nil in Hin.
  - in_fs.
  - vm_compute. reflexivity.
  - reflexivity.
  - reflexivity.
  - discriminate.
Defined.

(** The launcher under the win32 default prefix is found after the three
    probes of the win64 prefix and two probes of the win32 prefix. *)
Lemma search_in_order_witness :
  get_uplay_path host0 plain only_win32
  = (Ok exe32,
     records
       [EvPathExists
          "/r/prefix64/drive_c/Program Files (x86)/Ubisoft/Ubisoft Game Launcher/                upc.exe"
          false;
        EvPathExists exe64 false;
        EvPathExists "/r/prefix64/user.reg" false;
        EvPathExists
          "/r/prefix/drive_c/Program Files (x86)/Ubisoft/Ubisoft Game Launcher/                upc.exe"
          false;
        EvPathExists exe32 true]
       only_win32).
Proof.
  destruct (search_in_order host0 plain only_win32 "/r/prefix64" "/r/prefix")
    as (_ & _ & _ & _ & Hwin32).
  - vm_compute. reflexivity.
  - vm_compute. reflexivity.
  - intros exe H. vm_compute in H. discriminate H.
  - rewrite (Hwin32 exe32).
    + reflexivity.
    + by right; left.
    + in_fs.
    + intros other Hin Hother.
      apply elem_of_cons in Hin as [->|Hin].
      { exfalso. revert Hother. change (?p ∈ ?s → False) with (p ∉ s). not_in_fs. }
      apply elem_of_cons in Hin as [->|Hin]; [reflexivity|].
      by apply elem_of_nil in Hin.
    + intros place Hin.
      apply elem_of_cons in Hin as [->|Hin]; [not_in_fs|].
      apply elem_of_cons in Hin as [->|Hin]; [not_in_fs|].
      by apply elem_of_nil in Hin.
    + left. not_in_fs.
Defined.
